(** * bga-cards: the card manager (src/card-manager.ts)

    A shallow embedding of [CardManager<T>] and of the part of the browser it
    talks to: the document (lookup by id, attach, detach), the timer queue
    behind [setTimeout], and the registered stocks.  Every method is a
    function in a state-and-exception monad over that world, written in the
    order of the TypeScript statements. *)

From stdpp Require Import gmap strings list pretty.


(** ** JavaScript values

    The card type [T] is opaque to the manager, which only reads
    [(card as any).id] and [(card as any).type].  Primitive values are enough
    for both.  [Num] carries an integer-valued number (the ids of a game's
    cards), meant for the safe integers (see [exact] below); fractional
    numbers, [NaN] and objects are outside the model. *)
Module Js.

Inductive value : Type :=
| Undefined
| Null
| Bool (b : bool)
| Num (z : Z)
| Str (s : string).

#[global] Instance value_eq_dec : EqDecision value.
Proof. solve_decision. Defined.

(** [v == null], the test behind [??] and [?.]. *)
Definition nullish (v : value) : bool :=
  match v with
  | Undefined | Null => true
  | _ => false
  end.

(** [a ?? b]. *)
Definition coalesce (a b : value) : value :=
  if nullish a then b else a.

(** ToBoolean, as applied by [c ? x : y], [!c] and [if (c)]. *)
Definition truthy (v : value) : bool :=
  match v with
  | Undefined | Null => false
  | Bool b => b
  | Num z => negb (z =? 0)%Z
  | Str s => negb (String.eqb s "")
  end.

(** ToString, as applied by a template literal. *)
Definition toString (v : value) : string :=
  match v with
  | Undefined => "undefined"
  | Null => "null"
  | Bool true => "true"
  | Bool false => "false"
  | Num z => pretty z
  | Str s => s
  end.

Definition is_boolean (v : value) : bool :=
  match v with
  | Bool _ => true
  | _ => false
  end.

(** The values whose [toString] above is the one of the language: every
    value but the numbers beyond the safe integers, -(2^53 - 1) to 2^53 - 1
    (from 1e21 on a number prints in exponent form, and beyond 2^53 not
    every integer is a number). *)
Definition exact (v : value) : Prop :=
  match v with
  | Num z => (Z.abs z ≤ 9007199254740991)%Z
  | _ => True
  end.

(** The errors the manager can raise: its own [new Error('This card already
    exists ' + JSON.stringify(card))], kept as the card it is about, and the
    engine's [TypeError] on a property read of [null] or [undefined]. *)
Inductive error (T : Type) : Type :=
| CardAlreadyExists (card : T)
| TypeError (reading : string).
#[global] Arguments CardAlreadyExists {T} card.
#[global] Arguments TypeError {T} reading.

End Js.

(** A card is a plain object: a finite map from property names to values.
    A missing property reads as [undefined]. *)
Abbreviation Card := (gmap string Js.value).

Definition prop (card : Card) (name : string) : Js.value :=
  default Js.Undefined (card !! name).

(** ** Settings *)

(** What a population hook leaves on the div it is given (classes, dataset,
    inner markup), kept as one opaque string.  A hook is a function of the
    card and of what the div showed before; it touches nothing but that div. *)
Definition Payload := string.

Definition Hook := Card → Payload → Payload.

(** [CardManagerSettings<T>].  An absent callback is [None].  A [getId]
    callback answering [None] stands for one returning [null] or [undefined],
    which [??] replaces by the default. *)
Record CardManagerSettings := {
  s_getId : option (Card → option string);
  s_setupDiv : option Hook;
  s_setupFrontDiv : option Hook;
  s_setupBackDiv : option Hook;
  s_isCardVisible : option (Card → Js.value);
}.

(** [FlipCardSettings]; an unset field is [None]. *)
Record FlipCardSettings := {
  updateData : option bool;
  updateFront : option bool;
  updateBack : option bool;
  updateFrontDelay : option Z;
  updateBackDelay : option Z;
}.

Definition noFlipSettings : FlipCardSettings :=
  {| updateData := None; updateFront := None; updateBack := None;
     updateFrontDelay := None; updateBackDelay := None |}.

(** [settings?.field ?? dflt] for an optional settings object. *)
Definition setting {A} (settings : option FlipCardSettings)
    (field : FlipCardSettings → option A) (dflt : A) : A :=
  default dflt (settings ≫= field).

(** ** The world *)

(** Elements are objects: the manager, the stocks and pending timer callbacks
    all hold references to them.  A reference is an index into the heap. *)
Abbreviation ref := nat.

(** A card div as [createCardElement] builds it: the container with its id,
    [dataset.side] and class list, and the two faces of its [innerHTML]. *)
Record Element := {
  el_id : string;
  el_side : string;
  el_classes : list string;
  el_main : Payload;
  el_front_id : string;
  el_front : Payload;
  el_back_id : string;
  el_back : Payload;
}.


Definition with_side (side : string) (e : Element) : Element :=
  {| el_id := el_id e; el_side := side; el_classes := el_classes e;
     el_main := el_main e; el_front_id := el_front_id e; el_front := el_front e;
     el_back_id := el_back_id e; el_back := el_back e |}.

Definition on_main (f : Payload → Payload) (e : Element) : Element :=
  {| el_id := el_id e; el_side := el_side e; el_classes := el_classes e;
     el_main := f (el_main e); el_front_id := el_front_id e;
     el_front := el_front e; el_back_id := el_back_id e; el_back := el_back e |}.

Definition on_front (f : Payload → Payload) (e : Element) : Element :=
  {| el_id := el_id e; el_side := el_side e; el_classes := el_classes e;
     el_main := el_main e; el_front_id := el_front_id e;
     el_front := f (el_front e); el_back_id := el_back_id e;
     el_back := el_back e |}.

Definition on_back (f : Payload → Payload) (e : Element) : Element :=
  {| el_id := el_id e; el_side := el_side e; el_classes := el_classes e;
     el_main := el_main e; el_front_id := el_front_id e;
     el_front := el_front e; el_back_id := el_back_id e;
     el_back := f (el_back e) |}.

(** The div right after [document.createElement("div")] and the assignments
    of its id, of [dataset.side], of the [innerHTML] holding the two faces,
    and [classList.add('card')]; no hook has run yet.  The faces get their
    ids through the markup [id="<id>-front"]: they are the strings below for
    an id that the markup gives back as written ([Dom.plain_attribute]). *)
Definition blank (id side : string) : Element :=
  {| el_id := id; el_side := side; el_classes := ["card"]; el_main := "";
     el_front_id := id +:+ "-front"; el_front := "";
     el_back_id := id +:+ "-back"; el_back := "" |}.

(** Modelled from the spec: the stock class [CardStock<T>] is declared in
    bga-cards.d.ts but its body is not part of the sources.  A stock holds an
    ordered sequence of card values and a subset of selected cards. *)
Record CardStock := {
  cards : list Card;
  selectedCards : list Card;
}.

Inductive HookKind := SetupDiv | SetupFrontDiv | SetupBackDiv.

(** What a [setTimeout] closure of [setCardVisible] will do when it fires:
    it captured the card and the element. *)
Inductive Callback :=
| RefreshFront (card : Card) (element : ref)
| RefreshBack (card : Card) (element : ref).

Record Timer := {
  due : Z;
  callback : Callback;
}.

(** The observable steps, in the order they happen.  A hook call records
    whether the element it was given was in the document at that moment
    (what the hook would read from [element.isConnected]). *)
Inductive Event :=
| Attached (element : ref)
| Detached (element : ref)
| Renamed (element : ref) (id : string)
| HookCalled (kind : HookKind) (card : Card) (element : ref) (connected : bool)
| CardRemovedFrom (stock : nat) (card : Card).

Record World := {
  heap : list Element;      (* every element created so far, by reference *)
  doc : list ref;           (* the elements in the document, in tree order *)
  stocks : list CardStock;  (* [this.stocks] *)
  timers : list Timer;      (* pending timeouts, earliest first *)
  now : Z;                  (* the clock of the event loop *)
  events : list Event;
}.

Definition set_heap (f : list Element → list Element) (w : World) : World :=
  {| heap := f (heap w); doc := doc w; stocks := stocks w;
     timers := timers w; now := now w; events := events w |}.

Definition set_doc (f : list ref → list ref) (w : World) : World :=
  {| heap := heap w; doc := f (doc w); stocks := stocks w;
     timers := timers w; now := now w; events := events w |}.

Definition set_stocks (f : list CardStock → list CardStock) (w : World) : World :=
  {| heap := heap w; doc := doc w; stocks := f (stocks w);
     timers := timers w; now := now w; events := events w |}.

Definition set_timers (f : list Timer → list Timer) (w : World) : World :=
  {| heap := heap w; doc := doc w; stocks := stocks w;
     timers := f (timers w); now := now w; events := events w |}.

Definition set_now (t : Z) (w : World) : World :=
  {| heap := heap w; doc := doc w; stocks := stocks w;
     timers := timers w; now := t; events := events w |}.

Definition log (e : Event) (w : World) : World :=
  {| heap := heap w; doc := doc w; stocks := stocks w;
     timers := timers w; now := now w; events := events w ++ [e] |}.

(** ** Computations: state and exceptions

    A call either returns a value or throws; in both cases the world keeps
    whatever was mutated before. *)
Inductive Outcome (A : Type) : Type :=
| Returned (a : A) (w : World)
| Thrown (e : Js.error Card) (w : World).
Arguments Returned {A} a w.
Arguments Thrown {A} e w.

Definition world_of {A} (o : Outcome A) : World :=
  match o with
  | Returned _ w | Thrown _ w => w
  end.

Definition M (A : Type) : Type := World → Outcome A.

#[global] Instance M_ret : MRet M := λ A a w, Returned a w.

#[global] Instance M_bind : MBind M := λ A B k m w,
  match m w with
  | Returned a w' => k a w'
  | Thrown e w' => Thrown e w'
  end.

Definition throw {A} (e : Js.error Card) : M A := λ w, Thrown e w.
Definition gets {A} (f : World → A) : M A := λ w, Returned (f w) w.
Definition modify (f : World → World) : M unit := λ w, Returned tt (f w).

(** ** The document and the timer queue *)
Module Dom.

Definition has_id (w : World) (id : string) (r : ref) : bool :=
  match heap w !! r with
  | Some e => String.eqb (el_id e) id
  | None => false
  end.

(** [document.getElementById(id)]: the first element of the document, in
    tree order, carrying that id; [None] is [null].  The document is tracked
    as far as card divs go: no other element of the page (a face
    [<id>-front] or [<id>-back] included) is taken to reuse a card's id. *)
Definition getElementById (id : string) : M (option ref) :=
  gets (λ w, List.find (has_id w id) (doc w)).

(** [element.isConnected]. *)
Definition isConnected (w : World) (r : ref) : bool :=
  bool_decide (r ∈ doc w).

(** [document.createElement("div")] with the set-up of the div that
    follows it: a new object, in no document. *)
Definition createElement (id side : string) : M ref :=
  λ w, Returned (length (heap w)) (set_heap (λ h, h ++ [blank id side]) w).

(** [document.body.appendChild(element)]: last in tree order. *)
Definition appendChild (r : ref) : M unit :=
  modify (λ w, log (Attached r) (set_doc (λ d, d ++ [r]) w)).

(** [document.body.removeChild(element)] and [element.remove()]. *)
Definition removeChild (r : ref) : M unit :=
  modify (λ w, log (Detached r) (set_doc (filter (λ r', r' ≠ r)) w)).


(** [element.dataset.side = side]. *)
Definition setSide (r : ref) (side : string) : M unit :=
  modify (set_heap (alter (with_side side) r)).

(** [element.dataset.side]. *)
Definition getSide (r : ref) : M string :=
  gets (λ w, default "" (el_side <$> heap w !! r)).

Definition on_div (kind : HookKind) : (Payload → Payload) → Element → Element :=
  match kind with
  | SetupDiv => on_main
  | SetupFrontDiv => on_front
  | SetupBackDiv => on_back
  end.

(** [hook?.(card, div)] where [div] is the element itself for [setupDiv],
    [element.getElementsByClassName('front')[0]] for [setupFrontDiv] and
    [element.getElementsByClassName('back')[0]] for [setupBackDiv].
    Nothing happens when the hook is not set. *)
Definition callHook (kind : HookKind) (hook : option Hook)
    (card : Card) (r : ref) : M unit :=
  match hook with
  | None => mret tt
  | Some f =>
      modify (λ w, log (HookCalled kind card r (isConnected w r))
                       (set_heap (alter (on_div kind (f card)) r) w))
  end.

(** The queue is kept in firing order: a timer goes behind every timer due
    no later than itself. *)
Fixpoint enqueue (t : Timer) (q : list Timer) : list Timer :=
  match q with
  | [] => [t]
  | u :: q' => if (due t <? due u)%Z then t :: q else u :: enqueue t q'
  end.

(** The time [setTimeout] waits for a delay: the argument is converted to a
    signed 32-bit integer (it wraps around from 2^31 on), and a negative
    result counts as 0. *)
Definition timeout (delay : Z) : Z :=
  Z.max 0 ((delay + 2 ^ 31) mod 2 ^ 32 - 2 ^ 31)%Z.

(** [setTimeout(callback, delay)]. *)
Definition setTimeout (cb : Callback) (delay : Z) : M unit :=
  modify (λ w, set_timers
                 (enqueue {| due := (now w + timeout delay)%Z; callback := cb |}) w).

(** An id that the attribute [id="..."] of an [innerHTML] string gives back
    as it was written: printable ASCII without the double quote and the
    ampersand. *)
Definition plain_attribute (id : string) : bool :=
  forallb (λ c, let n := Ascii.nat_of_ascii c in
                (32 <=? n)%nat && (n <=? 126)%nat &&
                negb (n =? 34)%nat && negb (n =? 38)%nat)
          (String.list_ascii_of_string id).

End Dom.

(** ** Stocks, as far as the manager calls into them *)
Module Stock.

(** Modelled from the spec: [contains(card)] is missing from the sources;
    it is a pure read over the current sequence, matched by identity. *)
Definition contains (getId : Card → string) (stock : CardStock) (card : Card) : bool :=
  existsb (λ c, String.eqb (getId c) (getId card)) (cards stock).

(** Modelled from the spec: [getCards()] is missing from the sources;
    it is a pure read of the current sequence. *)
Definition getCards (stock : CardStock) : list Card := cards stock.


(** [stock.cards.splice(index, 1, card)]. *)
Definition splice1 (index : nat) (card : Card) (stock : CardStock) : CardStock :=
  {| cards := <[index := card]> (cards stock);
     selectedCards := selectedCards stock |}.

End Stock.

(** [array.findIndex(p)]; [None] is [-1]. *)
Fixpoint findIndex {A} (p : A → bool) (l : list A) : option nat :=
  match l with
  | [] => None
  | x :: l' => if p x then Some 0%nat else S <$> findIndex p l'
  end.

(** ** The card manager *)
Module CardManager.
Section Manager.

(** [this.settings], fixed by the constructor. *)
Context (settings : CardManagerSettings).

(** [this.stocks.push(stock)]. *)
Definition addStock (stock : CardStock) : M unit :=
  modify (set_stocks (λ l, l ++ [stock])).

(** [this.settings.getId?.(card) ?? `card-${(card as any).id}`]. *)
Definition getId (card : Card) : string :=
  default ("card-" +:+ Js.toString (prop card "id"))
          (s_getId settings ≫= λ f, f card).

Definition getCardElement (card : Card) : M (option ref) :=
  Dom.getElementById (getId card).

(** [visible] is [None] when the argument is left out (default [true]). *)
Definition createCardElement (card : Card) (visible : option bool) : M ref :=
  let visible := default true visible in
  let id := getId card in
  let side := if visible then "front" else "back" in
  existing ← getCardElement card;
  match existing with
  | Some _ => throw (Js.CardAlreadyExists card)
  | None =>
      element ← Dom.createElement id side;
      Dom.appendChild element;;
      Dom.callHook SetupDiv (s_setupDiv settings) card element;;
      Dom.callHook SetupFrontDiv (s_setupFrontDiv settings) card element;;
      Dom.callHook SetupBackDiv (s_setupBackDiv settings) card element;;
      Dom.removeChild element;;
      mret element
  end.

(** [this.stocks.find(stock => stock.contains(card))]; the stock is named
    by its position in [this.stocks], [None] is [undefined]. *)
Definition getCardStock (card : Card) : M (option nat) :=
  gets (λ w, findIndex (λ stock, Stock.contains getId stock card) (stocks w)).



(** [this.settings.isCardVisible?.(card) ?? ((card as any).type ?? false)]. *)
Definition isCardVisible (card : Card) : Js.value :=
  Js.coalesce
    (match s_isCardVisible settings with
     | Some f => f card
     | None => Js.Undefined
     end)
    (Js.coalesce (prop card "type") (Js.Bool false)).

(** The block [if (settings?.updateFront ?? true) { ... }] of
    [setCardVisible]. *)
Definition updateFrontBlock (card : Card) (element : ref) (isVisible : Js.value)
    (flip : option FlipCardSettings) : M unit :=
  if setting flip updateFront true then
    let updateFrontDelay := setting flip updateFrontDelay 500%Z in
    if negb (Js.truthy isVisible) && (0 <? updateFrontDelay)%Z
    then Dom.setTimeout (RefreshFront card element) updateFrontDelay
    else Dom.callHook SetupFrontDiv (s_setupFrontDiv settings) card element
  else mret tt.

(** The block [if (settings?.updateBack ?? false) { ... }]. *)
Definition updateBackBlock (card : Card) (element : ref) (isVisible : Js.value)
    (flip : option FlipCardSettings) : M unit :=
  if setting flip updateBack false then
    let updateBackDelay := setting flip updateBackDelay 0%Z in
    if Js.truthy isVisible && (0 <? updateBackDelay)%Z
    then Dom.setTimeout (RefreshBack card element) updateBackDelay
    else Dom.callHook SetupBackDiv (s_setupBackDiv settings) card element
  else mret tt.

(** The block [if (settings?.updateData ?? true) { ... }].  Reading
    [stock.getCards] when [getCardStock] answered [undefined] is a
    [TypeError]. *)
Definition updateDataBlock (card : Card) (flip : option FlipCardSettings) : M unit :=
  if setting flip updateData true then
    (* card data has changed *)
    stock ← getCardStock card;
    match stock with
    | None => throw (Js.TypeError "getCards")
    | Some stock =>
        cards ← gets (λ w, from_option Stock.getCards [] (stocks w !! stock));
        match findIndex (λ c, String.eqb (getId c) (getId card)) cards with
        | Some cardIndex =>
            modify (set_stocks (alter (Stock.splice1 cardIndex card) stock))
        | None => mret tt
        end
    end
  else mret tt.

(** [visible] is [None] when the argument is left out or [undefined]. *)
Definition setCardVisible (card : Card) (visible : option bool)
    (flip : option FlipCardSettings) : M unit :=
  element ← getCardElement card;
  match element with
  | None => mret tt
  | Some element =>
      let isVisible :=
        Js.coalesce (from_option Js.Bool Js.Undefined visible)
                    (isCardVisible card) in
      Dom.setSide element (if Js.truthy isVisible then "front" else "back");;
      updateFrontBlock card element isVisible flip;;
      updateBackBlock card element isVisible flip;;
      updateDataBlock card flip
  end.

Definition flipCard (card : Card) (flip : option FlipCardSettings) : M unit :=
  element ← getCardElement card;
  match element with
  | None => throw (Js.TypeError "dataset")
  | Some element =>
      side ← Dom.getSide element;
      let currentlyVisible := String.eqb side "front" in
      setCardVisible card (Some (negb currentlyVisible)) flip
  end.

(** [{ ...(settings ?? {}), updateData: true }]. *)
Definition updateCardInformations (card : Card)
    (flip : option FlipCardSettings) : M unit :=
  let old := default noFlipSettings flip in
  let newSettings :=
    {| updateData := Some true; updateFront := updateFront old;
       updateBack := updateBack old; updateFrontDelay := updateFrontDelay old;
       updateBackDelay := updateBackDelay old |} in
  setCardVisible card None (Some newSettings).

(** *** The event loop *)

(** The body of the arrow function handed to [setTimeout]. *)
Definition fire (cb : Callback) : M unit :=
  match cb with
  | RefreshFront card element =>
      Dom.callHook SetupFrontDiv (s_setupFrontDiv settings) card element
  | RefreshBack card element =>
      Dom.callHook SetupBackDiv (s_setupBackDiv settings) card element
  end.

(** Let [dt] time-units pass: every timer due by then fires, in queue
    order, and leaves the queue. *)
Definition advance (dt : Z) (w : World) : World :=
  let t := (now w + dt)%Z in
  let ready := filter (λ tm, (due tm ≤ t)%Z) (timers w) in
  let later := filter (λ tm, (t < due tm)%Z) (timers w) in
  foldl (λ w' tm, world_of (fire (callback tm) w'))
        (set_now t (set_timers (λ _, later) w)) ready.

End Manager.
End CardManager.

(** ** Reading a world *)

(** What [getCardElement(card)] answers in [w]. *)
Definition cardElement (s : CardManagerSettings) (w : World) (card : Card) : option ref :=
  match CardManager.getCardElement s card w with
  | Returned r _ => r
  | Thrown _ _ => None
  end.

(** What [getCardStock(card)] answers in [w]. *)
Definition owningStock (s : CardManagerSettings) (w : World) (card : Card) : option nat :=
  match CardManager.getCardStock s card w with
  | Returned i _ => i
  | Thrown _ _ => None
  end.

(** The events a call added to the trace. *)
Definition new_events (before after : World) : list Event :=
  drop (length (events before)) (events after).


(** The hook calls [createCardElement] makes on a fresh element [r], each one
    seeing the element with the given connectivity. *)
Definition population_calls (s : CardManagerSettings) (card : Card) (r : ref)
    (connected : bool) : list Event :=
  from_option (λ _, [HookCalled SetupDiv card r connected]) [] (s_setupDiv s) ++
  from_option (λ _, [HookCalled SetupFrontDiv card r connected]) [] (s_setupFrontDiv s) ++
  from_option (λ _, [HookCalled SetupBackDiv card r connected]) [] (s_setupBackDiv s).

(** [setupFrontDiv?.(card, front)] as a change of the element. *)
Definition refreshFront (s : CardManagerSettings) (card : Card) (e : Element) : Element :=
  match s_setupFrontDiv s with
  | Some f => on_front (f card) e
  | None => e
  end.

(** The three population hooks, those that are set, applied in turn. *)
Definition populated (s : CardManagerSettings) (card : Card) (e : Element) : Element :=
  from_option (λ f, on_back (f card)) id (s_setupBackDiv s)
    (from_option (λ f, on_front (f card)) id (s_setupFrontDiv s)
       (from_option (λ f, on_main (f card)) id (s_setupDiv s) e)).

(** Population away from the page: every hook call of [createCardElement]
    is handed an element that is not in the document, and the element comes
    back detached. *)
Definition populates_detached (s : CardManagerSettings) (card : Card)
    (visible : option bool) (w : World) : Prop :=
  ∀ r w', CardManager.createCardElement s card visible w = Returned r w' →
          (∀ kind c connected,
              HookCalled kind c r connected ∈ new_events w w' → connected = false)
          ∧ Dom.isConnected w' r = false.


(** Data replacement for any card that a registered stock holds: the call
    returns and the owning stock then has the new value at the index of the
    entry with the same id. *)
Definition replaces_stored_card (s : CardManagerSettings) (card : Card)
    (visible : option bool) (flip : option FlipCardSettings) (w : World) : Prop :=
  ∀ i stock,
    owningStock s w card = Some i → stocks w !! i = Some stock →
    ∃ w' stock' k,
      CardManager.setCardVisible s card visible flip w = Returned tt w' ∧
      stocks w' !! i = Some stock' ∧
      findIndex (λ c, String.eqb (CardManager.getId s c) (CardManager.getId s card))
                (cards stock) = Some k ∧
      cards stock' !! k = Some card.


(** ** Reading a call of [setCardVisible] *)

(** The face a call of [setCardVisible] settles on:
    [visible ?? this.isCardVisible(card)], as a truth value. *)
Definition facesFront (s : CardManagerSettings) (card : Card)
    (visible : option bool) : bool :=
  Js.truthy (Js.coalesce (from_option Js.Bool Js.Undefined visible)
                         (CardManager.isCardVisible s card)).

(** [setupBackDiv?.(card, back)] as a change of the element. *)
Definition refreshBack (s : CardManagerSettings) (card : Card) (e : Element) : Element :=
  match s_setupBackDiv s with
  | Some f => on_back (f card) e
  | None => e
  end.

(** The front refresh goes through [setTimeout]:
    [(settings?.updateFront ?? true) && !isVisible && updateFrontDelay > 0]. *)
Definition frontDeferred (flip : option FlipCardSettings) (front : bool) : bool :=
  setting flip updateFront true &&
  (negb front && (0 <? setting flip updateFrontDelay 500)%Z).

(** The back refresh goes through [setTimeout]:
    [(settings?.updateBack ?? false) && isVisible && updateBackDelay > 0]. *)
Definition backDeferred (flip : option FlipCardSettings) (front : bool) : bool :=
  setting flip updateBack false &&
  (front && (0 <? setting flip updateBackDelay 0)%Z).

(** The front, resp. back, refresh runs during the call (the [else]
    branches). *)
Definition frontNow (flip : option FlipCardSettings) (front : bool) : bool :=
  setting flip updateFront true && negb (frontDeferred flip front).

Definition backNow (flip : option FlipCardSettings) (front : bool) : bool :=
  setting flip updateBack false && negb (backDeferred flip front).

(** The queue after [setTimeout(cb, delay)] called in world [w]. *)
Definition queued (w : World) (delay : Z) (cb : Callback) : list Timer → list Timer :=
  Dom.enqueue {| due := (now w + Dom.timeout delay)%Z; callback := cb |}.

(** The ids a stock holds, in order. *)
Definition stockIds (s : CardManagerSettings) (stock : CardStock) : list string :=
  CardManager.getId s <$> cards stock.

(** The element a pending callback captured, and what it will do to it. *)
Definition target (cb : Callback) : ref :=
  match cb with
  | RefreshFront _ r | RefreshBack _ r => r
  end.

Definition refreshOf (s : CardManagerSettings) (cb : Callback) : Element → Element :=
  match cb with
  | RefreshFront card _ => refreshFront s card
  | RefreshBack card _ => refreshBack s card
  end.

(** ** Sample data *)
Module Sample.

(** A manager built with [{}]. *)
Definition plain : CardManagerSettings :=
  {| s_getId := None; s_setupDiv := None; s_setupFrontDiv := None;
     s_setupBackDiv := None; s_isCardVisible := None |}.

(** A manager whose three hooks write on the div they get. *)
Definition hooked : CardManagerSettings :=
  {| s_getId := None;
     s_setupDiv := Some (λ _ p, p +:+ "<div>");
     s_setupFrontDiv :=
       Some (λ card p, p +:+ "<front " +:+ Js.toString (prop card "type") +:+ ">");
     s_setupBackDiv := Some (λ _ p, p +:+ "<back>");
     s_isCardVisible := None |}.

(** [{id: 5}] and [{id: 5, type: 3}]. *)
Definition card5 : Card := {[ "id" := Js.Num 5 ]}.
Definition card5_typed : Card := <[ "type" := Js.Num 3 ]> card5.

Definition emptyWorld : World :=
  {| heap := []; doc := []; stocks := []; timers := []; now := 0%Z; events := [] |}.

Definition div5 : Element :=
  {| el_id := "card-5"; el_side := "front"; el_classes := ["card"];
     el_main := ""; el_front_id := "card-5-front"; el_front := "";
     el_back_id := "card-5-back"; el_back := "" |}.

(** The element of card 5 is in the document, no stock is registered. *)
Definition loose : World :=
  {| heap := [div5]; doc := [0%nat]; stocks := []; timers := [];
     now := 0%Z; events := [] |}.

(** The element of card 5 is in the document and the second of two
    registered stocks holds the card, between two others. *)
Definition onTable : World :=
  {| heap := [div5]; doc := [0%nat];
     stocks := [ {| cards := [ {[ "id" := Js.Num 1 ]} ]; selectedCards := [] |};
                 {| cards := [ {[ "id" := Js.Num 4 ]}; card5; {[ "id" := Js.Num 6 ]} ];
                    selectedCards := [] |} ];
     timers := []; now := 0%Z; events := [] |}.

(** Card 5, now known with its type, turned face-down and face-up on the
    table with default options. *)
Definition hidden : World :=
  world_of (CardManager.setCardVisible hooked card5_typed (Some false) None onTable).
Definition shown : World :=
  world_of (CardManager.setCardVisible hooked card5_typed (Some true) None onTable).

(** A stock holds card 5, but no element of it is in the document. *)
Definition stockOnly : World :=
  {| heap := []; doc := []; stocks := [ {| cards := [card5]; selectedCards := [] |} ];
     timers := []; now := 0%Z; events := [] |}.


(** [{id: '5'}]: the id is the string, not the number. *)
Definition card5s : Card := {[ "id" := Js.Str "5" ]}.

Definition card7 : Card := {[ "id" := Js.Num 7 ]}.

Definition div7 : Element :=
  {| el_id := "card-7"; el_side := "back"; el_classes := ["card"];
     el_main := ""; el_front_id := "card-7-front"; el_front := "";
     el_back_id := "card-7-back"; el_back := "" |}.

(** Cards 5 and 7 lie in the document; one stock holds both. *)
Definition pair : World :=
  {| heap := [div5; div7]; doc := [0%nat; 1%nat];
     stocks := [ {| cards := [card5; card7]; selectedCards := [card7] |} ];
     timers := []; now := 0%Z; events := [] |}.

(** A manager whose [isCardVisible] answers [false] for every card. *)
Definition picky : CardManagerSettings :=
  {| s_getId := None; s_setupDiv := None;
     s_setupFrontDiv := s_setupFrontDiv hooked;
     s_setupBackDiv := s_setupBackDiv hooked;
     s_isCardVisible := Some (λ _, Js.Bool false) |}.

(** [{updateData: false}]. *)
Definition dataOff : option FlipCardSettings :=
  Some {| updateData := Some false; updateFront := None; updateBack := None;
          updateFrontDelay := None; updateBackDelay := None |}.

(** [{updateBack: true, updateBackDelay: 300}]. *)
Definition backToo : option FlipCardSettings :=
  Some {| updateData := None; updateFront := None; updateBack := Some true;
          updateFrontDelay := None; updateBackDelay := Some 300%Z |}.

(** [{updateFrontDelay: 0, updateBack: true}]. *)
Definition atOnce : option FlipCardSettings :=
  Some {| updateData := None; updateFront := None; updateBack := Some true;
          updateFrontDelay := Some 0%Z; updateBackDelay := None |}.

End Sample.

(** * Properties *)

Import CardManager.

(** Unfolds the monad so that a method becomes a cascade of matches. *)
Ltac run :=
  unfold mbind, M_bind, mret, M_ret, throw, gets, modify in *; simpl in *.

Section Lookup.
Context (s : CardManagerSettings).

Lemma cardElement_find w card :
  cardElement s w card = List.find (Dom.has_id w (getId s card)) (doc w).
Proof. reflexivity. Qed.

(** An element found by id is an object of the heap, it carries the id and
    it is in the document. *)
Lemma cardElement_Some w card r :
  cardElement s w card = Some r →
  r ∈ doc w ∧ ∃ e, heap w !! r = Some e ∧ el_id e = getId s card.
Proof.
  rewrite cardElement_find. intros Hfind.
  apply find_some in Hfind as [Hin Hid]. split.
  - by apply list_elem_of_In.
  - unfold Dom.has_id in Hid. destruct (heap w !! r) as [e|]; [|done].
    exists e. split; [done|]. by apply String.eqb_eq.
Qed.

Lemma owningStock_findIndex w card :
  owningStock s w card =
  findIndex (λ stock, Stock.contains (getId s) stock card) (stocks w).
Proof. reflexivity. Qed.

End Lookup.

Section FindIndex.
Context {A : Type} (p : A → bool).

Lemma findIndex_Some l k :
  findIndex p l = Some k →
  ∃ x, l !! k = Some x ∧ p x = true ∧
       ∀ j y, (j < k)%nat → l !! j = Some y → p y = false.
Proof.
  revert k. induction l as [|a l IH]; intros k; simpl; [done|].
  destruct (p a) eqn:Hpa.
  - intros [= <-]. exists a. repeat split; [done|]. intros j y Hj. lia.
  - destruct (findIndex p l) as [k'|] eqn:Hk; simpl; [|done].
    intros [= <-]. destruct (IH k' eq_refl) as (x & Hx & Hpx & Hbefore).
    exists x. repeat split; [done..|].
    intros [|j] y Hj; simpl.
    + by intros [= <-].
    + apply Hbefore. lia.
Qed.

Lemma findIndex_None l :
  findIndex p l = None ↔ ∀ x, x ∈ l → p x = false.
Proof.
  induction l as [|a l IH]; simpl.
  - split; [|done]. intros _ x Hx. by apply elem_of_nil in Hx.
  - destruct (p a) eqn:Hpa.
    + split; [done|]. intros Hall. rewrite Hall in Hpa; [done|]. by left.
    + destruct (findIndex p l) as [k|] eqn:Hk; simpl.
      * split; [done|]. intros Hall.
        assert (Hnone : Some k = None); [|done].
        apply IH. intros x Hx. apply Hall. by right.
      * split; [|done]. intros _ x [->|Hx]%elem_of_cons; [done|].
        by apply IH.
Qed.

Lemma findIndex_existsb l :
  existsb p l = true → ∃ k, findIndex p l = Some k.
Proof.
  destruct (findIndex p l) as [k|] eqn:Hk; [by exists k|].
  intros [x [Hin Hpx]]%existsb_exists.
  rewrite (proj1 (findIndex_None l) Hk x) in Hpx; [done|].
  by apply list_elem_of_In.
Qed.

End FindIndex.

Section Creation.
Context (s : CardManagerSettings).

Lemma alter_last {A} (f : A → A) (h : list A) (e : A) :
  alter f (length h) (h ++ [e]) = h ++ [f e].
Proof. induction h as [|a h IH]; simpl; [done|]. by f_equal. Qed.

Lemma connected_after_append (d : list ref) r :
  bool_decide (r ∈ d ++ [r]) = true.
Proof. apply bool_decide_eq_true_2. set_solver. Qed.

Lemma new_events_app w w' l :
  events w' = events w ++ l → new_events w w' = l.
Proof. unfold new_events. intros ->. by rewrite drop_app_length. Qed.

(** The world a successful [createCardElement] leaves, field by field. *)
Lemma createCardElement_fresh card visible w :
  cardElement s w card = None →
  let r := length (heap w) in
  ∃ w', createCardElement s card visible w = Returned r w' ∧
        heap w' = heap w ++
                  [populated s card
                     (blank (getId s card)
                            (if default true visible then "front" else "back"))] ∧
        doc w' = filter (λ r', r' ≠ r) (doc w ++ [r]) ∧
        stocks w' = stocks w ∧ timers w' = timers w ∧ now w' = now w ∧
        events w' = events w ++ [Attached r] ++
                    population_calls s card r true ++ [Detached r].
Proof.
  intros Hnone r. rewrite cardElement_find in Hnone.
  unfold createCardElement, getCardElement, Dom.getElementById. run.
  rewrite Hnone.
  unfold populated, population_calls, Dom.callHook, Dom.isConnected.
  destruct (s_setupDiv s), (s_setupFrontDiv s), (s_setupBackDiv s); run;
    (eexists; split; [reflexivity|]); simpl;
    rewrite ?connected_after_append, ?alter_last, <- ?app_assoc; simpl;
    repeat split; reflexivity.
Qed.

Lemma createCardElement_existing card visible w r :
  cardElement s w card = Some r →
  createCardElement s card visible w = Thrown (Js.CardAlreadyExists card) w.
Proof.
  rewrite cardElement_find. intros Hsome.
  unfold createCardElement, getCardElement, Dom.getElementById. run.
  by rewrite Hsome.
Qed.

Lemma not_connected_after_removal (d : list ref) r :
  bool_decide (r ∈ filter (λ r', r' ≠ r) d) = false.
Proof.
  apply bool_decide_eq_false_2. intros [Hne _]%list_elem_of_filter. done.
Qed.

End Creation.

(** C1: when an element with the card's computed id is already in the
    document, [createCardElement] throws the duplicate-card error at once and
    leaves the world as it was (no element is created); when there is none,
    the call returns a reference to one newly created element. *)
Theorem createCardElement_duplicate_identity s card visible w :
  (∀ r, cardElement s w card = Some r →
        createCardElement s card visible w = Thrown (Js.CardAlreadyExists card) w) ∧
  (cardElement s w card = None →
   ∃ w', createCardElement s card visible w = Returned (length (heap w)) w' ∧
         length (heap w') = S (length (heap w))).
Proof.
  split.
  - intros r. apply createCardElement_existing.
  - intros Hnone.
    destruct (createCardElement_fresh s card visible w Hnone)
      as (w' & Hrun & Hheap & _).
    exists w'. split; [done|]. rewrite Hheap, length_app. simpl. lia.
Qed.

Lemma createCardElement_duplicate_identity_witness :
  createCardElement Sample.plain Sample.card5 None Sample.loose
    = Thrown (Js.CardAlreadyExists Sample.card5) Sample.loose ∧
  ∃ w', createCardElement Sample.plain Sample.card5 None Sample.emptyWorld
          = Returned 0%nat w' ∧ length (heap w') = 1%nat.
Proof.
  split.
  - apply (proj1 (createCardElement_duplicate_identity
                    Sample.plain Sample.card5 None Sample.loose) 0%nat).
    reflexivity.
  - apply (proj2 (createCardElement_duplicate_identity
                    Sample.plain Sample.card5 None Sample.emptyWorld)).
    reflexivity.
Defined.

(** C4, as stated, fails: with the three hooks set, [createCardElement] on an
    empty page hands each hook an element that is in the document. *)
Lemma createCardElement_hooks_see_connected_element :
  ¬ populates_detached Sample.hooked Sample.card5 None Sample.emptyWorld.
Proof.
  intros Hclaim.
  destruct (Hclaim 0%nat _ eq_refl) as [Hhooks _].
  discriminate (Hhooks SetupDiv Sample.card5 true).
  apply list_elem_of_In. vm_compute. right. left. reflexivity.
Qed.

(** C4, amended: [createCardElement] appends the new element to the document
    body, then calls every population hook that is set ([setupDiv],
    [setupFrontDiv], [setupBackDiv], in this order) while the element is in
    the document, then removes the element from the body and returns it
    detached. *)
Theorem createCardElement_populates_attached s card visible w :
  cardElement s w card = None →
  ∃ r w', createCardElement s card visible w = Returned r w' ∧
          new_events w w' =
            [Attached r] ++ population_calls s card r true ++ [Detached r] ∧
          Dom.isConnected w' r = false.
Proof.
  intros Hnone.
  destruct (createCardElement_fresh s card visible w Hnone)
    as (w' & Hrun & _ & Hdoc & _ & _ & _ & Hev).
  exists (length (heap w)), w'. split; [done|]. split.
  - by apply new_events_app.
  - unfold Dom.isConnected. rewrite Hdoc. apply not_connected_after_removal.
Qed.

Lemma createCardElement_populates_attached_witness :
  ∃ r w', createCardElement Sample.hooked Sample.card5 None Sample.emptyWorld
            = Returned r w' ∧
          new_events Sample.emptyWorld w' =
            [Attached r] ++
            population_calls Sample.hooked Sample.card5 r true ++ [Detached r] ∧
          Dom.isConnected w' r = false.
Proof.
  apply (createCardElement_populates_attached
           Sample.hooked Sample.card5 None Sample.emptyWorld).
  reflexivity.
Defined.

Lemma populated_id s card e : el_id (populated s card e) = el_id e.
Proof.
  unfold populated.
  by destruct (s_setupDiv s), (s_setupFrontDiv s), (s_setupBackDiv s).
Qed.



(** C9 at a failing input: for the card [{id: 5, type: 3}] the default
    [isCardVisible], declared to return a boolean, returns the number 3,
    which is no boolean and not the truth value [true] of the type field. *)
Lemma isCardVisible_returns_the_type_field :
  s_isCardVisible Sample.plain = None ∧
  isCardVisible Sample.plain Sample.card5_typed = Js.Num 3 ∧
  Js.is_boolean (isCardVisible Sample.plain Sample.card5_typed) = false ∧
  isCardVisible Sample.plain Sample.card5_typed
    ≠ Js.Bool (Js.truthy (prop Sample.card5_typed "type")).
Proof. repeat split. discriminate. Qed.

(** What the default [isCardVisible] computes: the card's [type] field
    itself when that is neither [undefined] nor [null], and [false]
    otherwise; the truth value of the result is the truth value of the
    [type] field, but the result is a boolean only when the field holds a
    boolean, [null] or [undefined]. *)
Theorem isCardVisible_default_follows_type_field s card :
  s_isCardVisible s = None →
  isCardVisible s card =
    (if Js.nullish (prop card "type") then Js.Bool false else prop card "type") ∧
  Js.truthy (isCardVisible s card) = Js.truthy (prop card "type") ∧
  (card !! "type" = None → isCardVisible s card = Js.Bool false) ∧
  Js.is_boolean (isCardVisible s card) =
    Js.is_boolean (prop card "type") || Js.nullish (prop card "type").
Proof.
  intros Hdefault. unfold isCardVisible, prop. rewrite Hdefault.
  destruct (card !! "type") as [[| |b|z|t]|]; simpl; repeat split; done.
Qed.

Lemma isCardVisible_default_follows_type_field_witness :
  Js.truthy (isCardVisible Sample.plain Sample.card5_typed) = true ∧
  isCardVisible Sample.plain Sample.card5 = Js.Bool false.
Proof.
  destruct (isCardVisible_default_follows_type_field
              Sample.plain Sample.card5_typed eq_refl) as (_ & Htruthy & _).
  destruct (isCardVisible_default_follows_type_field
              Sample.plain Sample.card5 eq_refl) as (_ & _ & Habsent & _).
  split; [rewrite Htruthy; reflexivity | apply Habsent; reflexivity].
Defined.

Section MissingElement.
Context (s : CardManagerSettings).

(** [setCardVisible] guards against a missing element. *)
Lemma setCardVisible_without_element card visible flip w :
  cardElement s w card = None →
  setCardVisible s card visible flip w = Returned tt w.
Proof.
  rewrite cardElement_find. intros Hnone.
  unfold setCardVisible, getCardElement, Dom.getElementById. run.
  by rewrite Hnone.
Qed.

(** [flipCard] reads [element.dataset] before any guard. *)
Lemma flipCard_without_element card flip w :
  cardElement s w card = None →
  flipCard s card flip w = Thrown (Js.TypeError "dataset") w.
Proof.
  rewrite cardElement_find. intros Hnone.
  unfold flipCard, getCardElement, Dom.getElementById. run.
  by rewrite Hnone.
Qed.

End MissingElement.

(** C3 at a failing input: on a page without the element of card [{id: 5}],
    [setCardVisible] returns and leaves the world as it was, while [flipCard]
    throws a [TypeError]. *)
Theorem flipCard_throws_without_element :
  cardElement Sample.plain Sample.emptyWorld Sample.card5 = None ∧
  setCardVisible Sample.plain Sample.card5 None None Sample.emptyWorld
    = Returned tt Sample.emptyWorld ∧
  flipCard Sample.plain Sample.card5 None Sample.emptyWorld
    = Thrown (Js.TypeError "dataset") Sample.emptyWorld.
Proof.
  split; [reflexivity|]. split.
  - by apply setCardVisible_without_element.
  - by apply flipCard_without_element.
Qed.

Section Removal.
Context (s : CardManagerSettings).



End Removal.






Section Visibility.
Context (s : CardManagerSettings).

(** The two face blocks always return and touch neither the stocks nor
    the document. *)
Lemma updateFrontBlock_returns card r isVisible flip w :
  ∃ w', updateFrontBlock s card r isVisible flip w = Returned tt w' ∧
        stocks w' = stocks w ∧ doc w' = doc w.
Proof.
  unfold updateFrontBlock, Dom.setTimeout, Dom.callHook.
  repeat case_match; eexists; (split; [reflexivity|]); done.
Qed.

Lemma updateBackBlock_returns card r isVisible flip w :
  ∃ w', updateBackBlock s card r isVisible flip w = Returned tt w' ∧
        stocks w' = stocks w ∧ doc w' = doc w.
Proof.
  unfold updateBackBlock, Dom.setTimeout, Dom.callHook.
  repeat case_match; eexists; (split; [reflexivity|]); done.
Qed.

Lemma owningStock_stocks w w' card :
  stocks w' = stocks w → owningStock s w' card = owningStock s w card.
Proof. rewrite !owningStock_findIndex. by intros ->. Qed.

(** With its element in the document, [setCardVisible] comes down to its
    last block, run in a world with the same stocks and document. *)
Lemma setCardVisible_present card visible flip w r :
  cardElement s w card = Some r →
  ∃ w1, stocks w1 = stocks w ∧ doc w1 = doc w ∧
        setCardVisible s card visible flip w = updateDataBlock s card flip w1.
Proof.
  rewrite cardElement_find. intros Hel.
  unfold setCardVisible, getCardElement, Dom.getElementById, Dom.setSide.
  unfold mbind, M_bind, gets, modify. rewrite Hel.
  set (isVisible := Js.coalesce _ _).
  set (w0 := set_heap _ w).
  destruct (updateFrontBlock_returns card r isVisible flip w0)
    as (w1 & -> & Hst1 & Hdoc1).
  destruct (updateBackBlock_returns card r isVisible flip w1)
    as (w2 & -> & Hst2 & Hdoc2).
  exists w2. rewrite Hst2, Hst1, Hdoc2, Hdoc1. done.
Qed.

Lemma updateDataBlock_without_stock card flip w :
  setting flip updateData true = true →
  owningStock s w card = None →
  updateDataBlock s card flip w = Thrown (Js.TypeError "getCards") w.
Proof.
  rewrite owningStock_findIndex. intros Hon Hnone.
  unfold updateDataBlock, getCardStock. run. by rewrite Hon, Hnone.
Qed.

Lemma updateDataBlock_in_stock card flip w i :
  setting flip updateData true = true →
  owningStock s w card = Some i →
  ∃ stock k,
    stocks w !! i = Some stock ∧
    findIndex (λ c, String.eqb (getId s c) (getId s card)) (cards stock) = Some k ∧
    updateDataBlock s card flip w =
      Returned tt (set_stocks (alter (Stock.splice1 k card) i) w).
Proof.
  rewrite owningStock_findIndex. intros Hon Hsome.
  destruct (findIndex_Some _ _ _ Hsome) as (stock & Hi & Hcontains & _).
  destruct (findIndex_existsb _ _ Hcontains) as [k Hk].
  exists stock, k. repeat split; [done..|].
  unfold updateDataBlock, getCardStock. run.
  rewrite Hon, Hsome, Hi. simpl. unfold Stock.getCards. by rewrite Hk.
Qed.

(** What the call with default options leaves on the element, the timer
    queue and the trace, whatever its last block does. *)
Lemma setCardVisible_hide_default card w r :
  cardElement s w card = Some r →
  let hidden := world_of (setCardVisible s card (Some false) None w) in
  heap hidden = alter (with_side "back") r (heap w) ∧
  timers hidden =
    Dom.enqueue {| due := now w + 500; callback := RefreshFront card r |} (timers w) ∧
  events hidden = events w ∧ now hidden = now w ∧ doc hidden = doc w.
Proof.
  rewrite cardElement_find. intros Hel.
  unfold setCardVisible, getCardElement, Dom.getElementById, Dom.setSide,
    updateFrontBlock, updateBackBlock, updateDataBlock, getCardStock,
    Dom.setTimeout.
  run. rewrite Hel. simpl.
  repeat case_match; done.
Qed.

Lemma setCardVisible_show_default card w r :
  cardElement s w card = Some r →
  let shown := world_of (setCardVisible s card (Some true) None w) in
  heap shown = alter (refreshFront s card) r (alter (with_side "front") r (heap w)) ∧
  timers shown = timers w ∧
  events shown =
    events w ++ from_option (λ _, [HookCalled SetupFrontDiv card r true]) []
                            (s_setupFrontDiv s) ∧
  now shown = now w ∧ doc shown = doc w.
Proof.
  intros Hel. destruct (cardElement_Some s w card r Hel) as [Hin _].
  rewrite cardElement_find in Hel.
  unfold setCardVisible, getCardElement, Dom.getElementById, Dom.setSide,
    updateFrontBlock, updateBackBlock, updateDataBlock, getCardStock,
    Dom.callHook, Dom.isConnected, refreshFront.
  run. rewrite Hel. simpl.
  destruct (s_setupFrontDiv s) as [f|]; simpl.
  - rewrite (bool_decide_eq_true_2 _ Hin).
    repeat case_match; done.
  - rewrite (list_alter_id id) by done. rewrite app_nil_r.
    repeat case_match; done.
Qed.

(** A lone timer fires once its delay has passed, not before. *)
Lemma advance_single_front_timer card r w dt t :
  timers w = [ {| due := t; callback := RefreshFront card r |} ] →
  heap (advance s dt w) =
    if (now w + dt <? t)%Z then heap w else alter (refreshFront s card) r (heap w).
Proof.
  intros Hq. unfold advance. rewrite Hq.
  rewrite !filter_cons, !filter_nil. simpl.
  destruct (Z.ltb_spec (now w + dt) t) as [Hlt|Hge].
  - repeat case_decide; try lia. done.
  - repeat case_decide; try lia. simpl.
    unfold Dom.callHook, refreshFront.
    destruct (s_setupFrontDiv s) as [f|]; simpl; [done|].
    by rewrite (list_alter_id id).
Qed.
End Visibility.

(** C2: for a card whose element is in the document, [setCardVisible(card,
    false)] with default options sets [dataset.side] to ["back"] at once,
    calls no hook during the call, and queues the [setupFrontDiv] refresh
    500 time-units ahead (on an otherwise empty queue the front face is
    untouched before 500 units have passed and refreshed from then on);
    [setCardVisible(card, true)] with default options sets the side to
    ["front"] and refreshes the front face during the call, queuing nothing;
    in both cases the back face is left as it was. *)
Theorem setCardVisible_default_options s card w r e :
  cardElement s w card = Some r →
  heap w !! r = Some e →
  let hidden := world_of (setCardVisible s card (Some false) None w) in
  let shown := world_of (setCardVisible s card (Some true) None w) in
  (heap hidden !! r = Some (with_side "back" e) ∧
   new_events w hidden = [] ∧
   timers hidden =
     Dom.enqueue {| due := now w + 500; callback := RefreshFront card r |}
                 (timers w) ∧
   (timers w = [] → ∀ dt,
      heap (advance s dt hidden) !! r =
        Some (if (dt <? 500)%Z then with_side "back" e
              else refreshFront s card (with_side "back" e)))) ∧
  (heap shown !! r = Some (refreshFront s card (with_side "front" e)) ∧
   new_events w shown =
     from_option (λ _, [HookCalled SetupFrontDiv card r true]) []
                 (s_setupFrontDiv s) ∧
   timers shown = timers w) ∧
  (el_back <$> heap hidden !! r = Some (el_back e) ∧
   el_back <$> heap shown !! r = Some (el_back e)).
Proof.
  intros Hel He hidden shown.
  destruct (setCardVisible_hide_default s card w r Hel)
    as (Hheap & Htimers & Hevents & Hnow & _).
  destruct (setCardVisible_show_default s card w r Hel)
    as (Hheap' & Htimers' & Hevents' & _).
  fold hidden in Hheap, Htimers, Hevents, Hnow.
  fold shown in Hheap', Htimers', Hevents'.
  assert (Hr : heap hidden !! r = Some (with_side "back" e)).
  { by rewrite Hheap, list_lookup_alter_eq, He. }
  assert (Hr' : heap shown !! r = Some (refreshFront s card (with_side "front" e))).
  { by rewrite Hheap', !list_lookup_alter_eq, He. }
  split; [|split].
  - split; [done|]. split.
    { apply new_events_app. by rewrite app_nil_r. }
    split; [done|]. intros Hempty dt.
    rewrite (advance_single_front_timer s card r hidden dt (now w + 500)).
    + rewrite Hnow.
      destruct (Z.ltb_spec (now w + dt) (now w + 500)),
               (Z.ltb_spec dt 500); try lia; [done|].
      by rewrite list_lookup_alter_eq, Hr.
    + by rewrite Htimers, Hempty.
  - split; [done|]. split; [|done]. by apply new_events_app.
  - rewrite Hr, Hr'. unfold refreshFront.
    by destruct (s_setupFrontDiv s).
Qed.

Lemma setCardVisible_default_options_witness :
  el_side <$> heap (Sample.hidden) !! 0%nat = Some "back" ∧
  el_front <$> heap (Sample.hidden) !! 0%nat = Some "" ∧
  el_front <$> heap (advance Sample.hooked 499 Sample.hidden) !! 0%nat = Some "" ∧
  el_front <$> heap (advance Sample.hooked 500 Sample.hidden) !! 0%nat
    = Some "<front 3>" ∧
  el_front <$> heap (Sample.shown) !! 0%nat = Some "<front 3>" ∧
  el_back <$> heap (Sample.shown) !! 0%nat = Some "".
Proof.
  destruct (setCardVisible_default_options
              Sample.hooked Sample.card5_typed Sample.onTable 0%nat Sample.div5
              eq_refl eq_refl)
    as ((Hside & _ & _ & Hlater) & (Hfront & _) & _).
  unfold Sample.hidden, Sample.shown.
  rewrite Hside, Hfront, !(Hlater eq_refl). repeat split.
Defined.

(** C6, as stated, fails: a stock holds card 5 but no element of the card is
    in the document; [setCardVisible] with data replacement on returns at its
    first test and the stock keeps the old value. *)
Lemma setCardVisible_skips_data_without_element :
  ¬ replaces_stored_card Sample.plain Sample.card5_typed None None Sample.stockOnly.
Proof.
  intros Hclaim.
  destruct (Hclaim 0%nat _ eq_refl eq_refl) as (w' & stock' & k & Hrun & Hi & Hk & Hk').
  rewrite (setCardVisible_without_element
             Sample.plain Sample.card5_typed None None Sample.stockOnly eq_refl)
    in Hrun.
  injection Hrun as <-. simpl in Hi. injection Hi as <-.
  vm_compute in Hk. injection Hk as <-.
  simpl in Hk'. apply (inj Some) in Hk'.
  apply (f_equal (λ c : Card, c !! "type")) in Hk'.
  vm_compute in Hk'. discriminate Hk'.
Qed.

(** C6, amended: for a card whose element is in the document and which a
    registered stock holds, [setCardVisible] with data replacement on puts
    the new card value in the owning stock's sequence at the index of the entry with the
    same id; the sequence keeps its length and its other entries, and the
    other stocks are untouched. *)
Theorem setCardVisible_replaces_card_in_place s card visible flip w r i :
  cardElement s w card = Some r →
  owningStock s w card = Some i →
  setting flip updateData true = true →
  ∃ w' stock stock' k old,
    setCardVisible s card visible flip w = Returned tt w' ∧
    stocks w !! i = Some stock ∧ stocks w' !! i = Some stock' ∧
    findIndex (λ c, String.eqb (getId s c) (getId s card)) (cards stock) = Some k ∧
    cards stock !! k = Some old ∧ getId s old = getId s card ∧
    cards stock' !! k = Some card ∧
    length (cards stock') = length (cards stock) ∧
    (∀ j, j ≠ k → cards stock' !! j = cards stock !! j) ∧
    length (stocks w') = length (stocks w) ∧
    (∀ j, j ≠ i → stocks w' !! j = stocks w !! j).
Proof.
  intros Hel Hstock Hon.
  destruct (setCardVisible_present s card visible flip w r Hel)
    as (w1 & Hstocks & _ & ->).
  rewrite <- (owningStock_stocks s w w1 card Hstocks) in Hstock.
  destruct (updateDataBlock_in_stock s card flip w1 i Hon Hstock)
    as (stock & k & Hi & Hk & ->).
  rewrite Hstocks in Hi.
  destruct (findIndex_Some _ _ _ Hk) as (old & Hold & Hsame & _).
  apply String.eqb_eq in Hsame.
  exists (set_stocks (alter (Stock.splice1 k card) i) w1),
         stock, (Stock.splice1 k card stock), k, old.
  simpl. rewrite Hstocks.
  repeat split; try done.
  - by rewrite list_lookup_alter_eq, Hi.
  - apply list_lookup_insert_eq. by eapply lookup_lt_Some.
  - apply length_insert.
  - intros j Hj. by apply list_lookup_insert_ne.
  - apply length_alter.
  - intros j Hj. by apply list_lookup_alter_ne.
Qed.

Lemma setCardVisible_replaces_card_in_place_witness :
  ∃ w' stock stock' k old,
    setCardVisible Sample.plain Sample.card5_typed None None Sample.onTable
      = Returned tt w' ∧
    stocks Sample.onTable !! 1%nat = Some stock ∧ stocks w' !! 1%nat = Some stock' ∧
    findIndex (λ c, String.eqb (getId Sample.plain c)
                               (getId Sample.plain Sample.card5_typed))
              (cards stock) = Some k ∧
    cards stock !! k = Some old ∧
    getId Sample.plain old = getId Sample.plain Sample.card5_typed ∧
    cards stock' !! k = Some Sample.card5_typed ∧
    length (cards stock') = length (cards stock) ∧
    (∀ j, j ≠ k → cards stock' !! j = cards stock !! j) ∧
    length (stocks w') = length (stocks Sample.onTable) ∧
    (∀ j, j ≠ 1%nat → stocks w' !! j = stocks Sample.onTable !! j).
Proof.
  apply (setCardVisible_replaces_card_in_place
           Sample.plain Sample.card5_typed None None Sample.onTable 0%nat 1%nat);
    reflexivity.
Defined.

(** C10: for a card whose element is in the document while no registered
    stock contains the card, [setCardVisible] with default settings (data
    replacement left on) does not complete: the stock lookup answers
    [undefined] and reading its card list throws a [TypeError]. *)
Theorem setCardVisible_throws_outside_any_stock s card visible flip w r :
  cardElement s w card = Some r →
  (∀ stock, stock ∈ stocks w → Stock.contains (getId s) stock card = false) →
  setting flip updateData true = true →
  owningStock s w card = None ∧
  ∃ w', setCardVisible s card visible flip w = Thrown (Js.TypeError "getCards") w'.
Proof.
  intros Hel Hnowhere Hon.
  assert (Hnone : owningStock s w card = None).
  { rewrite owningStock_findIndex. by apply findIndex_None. }
  split; [done|].
  destruct (setCardVisible_present s card visible flip w r Hel)
    as (w1 & Hstocks & _ & ->).
  exists w1. apply updateDataBlock_without_stock; [done|].
  by rewrite (owningStock_stocks s w w1 card Hstocks).
Qed.

Lemma setCardVisible_throws_outside_any_stock_witness :
  owningStock Sample.plain Sample.loose Sample.card5 = None ∧
  ∃ w', setCardVisible Sample.plain Sample.card5 (Some false) None Sample.loose
          = Thrown (Js.TypeError "getCards") w'.
Proof.
  apply (setCardVisible_throws_outside_any_stock
           Sample.plain Sample.card5 (Some false) None Sample.loose 0%nat).
  - reflexivity.
  - intros stock Hin. simpl in Hin. by apply elem_of_nil in Hin.
  - reflexivity.
Defined.

(** * Further properties of the manager *)

Section Identity.
Context (s : CardManagerSettings).

Lemma default_getId_eq a b :
  s_getId s = None →
  getId s a = getId s b ↔ Js.toString (prop a "id") = Js.toString (prop b "id").
Proof.
  intros Hdefault. unfold getId. rewrite Hdefault. simpl.
  split; [|by intros ->]. intros Heq. by simplify_eq.
Qed.

End Identity.

(** X1: without a [getId] setting, two cards whose [id] fields are strings,
    safe integers, booleans, [null] or [undefined] get the same id exactly
    when the two fields have the same string form: distinct integer ids
    never collide, but the number [n] and the string of its digits do. *)
Theorem default_getId_collisions s a b :
  s_getId s = None →
  Js.exact (prop a "id") →
  Js.exact (prop b "id") →
  (getId s a = getId s b ↔ Js.toString (prop a "id") = Js.toString (prop b "id")) ∧
  (∀ m n, prop a "id" = Js.Num m → prop b "id" = Js.Num n →
          (getId s a = getId s b ↔ m = n)) ∧
  (∀ n, prop a "id" = Js.Num n → prop b "id" = Js.Str (pretty n) →
        getId s a = getId s b).
Proof.
  intros Hdefault _ _. pose proof (default_getId_eq s a b Hdefault) as Heq.
  split; [done|]. split.
  - intros m n Ha Hb. rewrite Heq, Ha, Hb. simpl. split; [|by intros ->].
    apply (inj pretty).
  - intros n Ha Hb. apply Heq. by rewrite Ha, Hb.
Qed.

Lemma default_getId_collisions_witness :
  getId Sample.plain Sample.card5 = getId Sample.plain Sample.card5s ∧
  (getId Sample.plain Sample.card5 = getId Sample.plain Sample.card7 ↔ 5%Z = 7%Z).
Proof.
  assert (Hsafe5 : Js.exact (prop Sample.card5 "id")) by (vm_compute; discriminate).
  assert (Hsafe7 : Js.exact (prop Sample.card7 "id")) by (vm_compute; discriminate).
  destruct (default_getId_collisions Sample.plain Sample.card5 Sample.card5s
              eq_refl Hsafe5 I) as (_ & _ & Hsame).
  destruct (default_getId_collisions Sample.plain Sample.card5 Sample.card7
              eq_refl Hsafe5 Hsafe7) as (_ & Hnum & _).
  split; [apply (Hsame 5%Z); reflexivity | apply Hnum; reflexivity].
Defined.

Lemma find_filter_irrelevant {A} (p p' : A → bool) (q : A → Prop) `{∀ x, Decision (q x)} l :
  (∀ x, x ∈ l → q x → p' x = p x) →
  (∀ x, x ∈ l → ¬ q x → p x = false) →
  find p' (filter q l) = find p l.
Proof.
  induction l as [|a l IH]; intros Hkeep Hdrop; [done|].
  rewrite filter_cons. simpl. destruct (decide (q a)) as [Hq|Hq]; simpl.
  - rewrite (Hkeep a); [|by left|done]. destruct (p a); [done|].
    apply IH; intros x Hx; [apply Hkeep|apply Hdrop]; by right.
  - rewrite (Hdrop a); [|by left|done].
    apply IH; intros x Hx; [apply Hkeep|apply Hdrop]; by right.
Qed.

Section Creation.
Context (s : CardManagerSettings).

Lemma populated_fields card e :
  el_id (populated s card e) = el_id e ∧ el_side (populated s card e) = el_side e ∧
  el_classes (populated s card e) = el_classes e ∧
  el_front_id (populated s card e) = el_front_id e ∧
  el_back_id (populated s card e) = el_back_id e.
Proof.
  unfold populated.
  by destruct (s_setupDiv s), (s_setupFrontDiv s), (s_setupBackDiv s).
Qed.

(** Lookups by id do not see what [createCardElement] did. *)
Lemma createCardElement_lookup_frame card visible w w' r other :
  createCardElement s card visible w = Returned r w' →
  cardElement s w' other = cardElement s w other.
Proof.
  intros Hrun.
  destruct (cardElement s w card) as [r0|] eqn:Hel.
  { rewrite (createCardElement_existing s card visible w r0 Hel) in Hrun. done. }
  destruct (createCardElement_fresh s card visible w Hel)
    as (w2 & Hrun2 & Hheap & Hdoc & _).
  rewrite Hrun in Hrun2. injection Hrun2 as -> ->.
  rewrite !cardElement_find, Hdoc.
  rewrite filter_app, filter_cons, filter_nil.
  rewrite decide_False by (intros Hne; by apply Hne).
  rewrite app_nil_r.
  apply find_filter_irrelevant.
  - intros x _ Hne. unfold Dom.has_id. rewrite Hheap.
    destruct (decide (x < length (heap w))%nat) as [Hlt|Hge].
    + by rewrite lookup_app_l.
    + rewrite !lookup_ge_None_2; [done|lia|].
      rewrite length_app. simpl. lia.
  - intros x _ Heq. apply dec_stable in Heq. subst x.
    unfold Dom.has_id. by rewrite lookup_ge_None_2.
Qed.
End Creation.

Section Faces.
Context (s : CardManagerSettings).

Lemma updateDataBlock_frame card flip w :
  let w' := world_of (updateDataBlock s card flip w) in
  heap w' = heap w ∧ doc w' = doc w ∧ timers w' = timers w ∧ now w' = now w ∧
  events w' = events w.
Proof.
  unfold updateDataBlock, getCardStock. run.
  repeat case_match; done.
Qed.

Lemma callHook_front card r w :
  Dom.callHook SetupFrontDiv (s_setupFrontDiv s) card r w =
  Returned tt (world_of (Dom.callHook SetupFrontDiv (s_setupFrontDiv s) card r w)) ∧
  heap (world_of (Dom.callHook SetupFrontDiv (s_setupFrontDiv s) card r w)) =
    alter (refreshFront s card) r (heap w).
Proof.
  unfold Dom.callHook, refreshFront. destruct (s_setupFrontDiv s); simpl; [done|].
  split; [done|]. by rewrite list_alter_id.
Qed.

Lemma callHook_back card r w :
  Dom.callHook SetupBackDiv (s_setupBackDiv s) card r w =
  Returned tt (world_of (Dom.callHook SetupBackDiv (s_setupBackDiv s) card r w)) ∧
  heap (world_of (Dom.callHook SetupBackDiv (s_setupBackDiv s) card r w)) =
    alter (refreshBack s card) r (heap w).
Proof.
  unfold Dom.callHook, refreshBack. destruct (s_setupBackDiv s); simpl; [done|].
  split; [done|]. by rewrite list_alter_id.
Qed.

Lemma callHook_frame kind hook card r w :
  let w' := world_of (Dom.callHook kind hook card r w) in
  doc w' = doc w ∧ stocks w' = stocks w ∧ timers w' = timers w ∧ now w' = now w.
Proof. unfold Dom.callHook. by destruct hook. Qed.

Lemma updateFrontBlock_effect card r v flip w :
  ∃ w', updateFrontBlock s card r v flip w = Returned tt w' ∧
        heap w' = (if frontNow flip (Js.truthy v)
                   then alter (refreshFront s card) r else id) (heap w) ∧
        timers w' =
          (if frontDeferred flip (Js.truthy v)
           then queued w (setting flip updateFrontDelay 500%Z) (RefreshFront card r)
           else id) (timers w) ∧
        doc w' = doc w ∧ now w' = now w ∧ stocks w' = stocks w.
Proof.
  unfold updateFrontBlock, frontNow, frontDeferred, queued.
  destruct (setting flip updateFront true); simpl; [|by eexists].
  destruct (negb (Js.truthy v) && _) eqn:Hdefer; simpl.
  - eexists. split; [reflexivity|]. done.
  - destruct (callHook_front card r w) as [-> Hheap].
    destruct (callHook_frame SetupFrontDiv (s_setupFrontDiv s) card r w)
      as (? & ? & ? & ?).
    eexists. split; [reflexivity|]. done.
Qed.

Lemma updateBackBlock_effect card r v flip w :
  ∃ w', updateBackBlock s card r v flip w = Returned tt w' ∧
        heap w' = (if backNow flip (Js.truthy v)
                   then alter (refreshBack s card) r else id) (heap w) ∧
        timers w' =
          (if backDeferred flip (Js.truthy v)
           then queued w (setting flip updateBackDelay 0%Z) (RefreshBack card r)
           else id) (timers w) ∧
        doc w' = doc w ∧ now w' = now w ∧ stocks w' = stocks w.
Proof.
  unfold updateBackBlock, backNow, backDeferred, queued.
  destruct (setting flip updateBack false); simpl; [|by eexists].
  destruct (Js.truthy v && _) eqn:Hdefer; simpl.
  - eexists. split; [reflexivity|]. done.
  - destruct (callHook_back card r w) as [-> Hheap].
    destruct (callHook_frame SetupBackDiv (s_setupBackDiv s) card r w)
      as (? & ? & ? & ?).
    eexists. split; [reflexivity|]. done.
Qed.

Lemma setCardVisible_faces card visible flip w r :
  cardElement s w card = Some r →
  let front := facesFront s card visible in
  let w' := world_of (setCardVisible s card visible flip w) in
  heap w' =
    alter (λ e, (if backNow flip front then refreshBack s card else id)
                  ((if frontNow flip front then refreshFront s card else id)
                     (with_side (if front then "front" else "back") e)))
          r (heap w) ∧
  timers w' =
    (if backDeferred flip front
     then queued w (setting flip updateBackDelay 0%Z) (RefreshBack card r) else id)
      ((if frontDeferred flip front
        then queued w (setting flip updateFrontDelay 500%Z) (RefreshFront card r)
        else id) (timers w)) ∧
  doc w' = doc w ∧ now w' = now w.
Proof.
  intros Hel front w'. subst w'.
  rewrite cardElement_find in Hel.
  unfold setCardVisible, getCardElement, Dom.getElementById, Dom.setSide.
  unfold mbind, M_bind, gets, modify. rewrite Hel.
  set (v := Js.coalesce _ _).
  change (Js.truthy v) with front.
  set (w0 := set_heap _ w).
  destruct (updateFrontBlock_effect card r v flip w0)
    as (w1 & -> & Hh1 & Ht1 & Hd1 & Hn1 & _).
  destruct (updateBackBlock_effect card r v flip w1)
    as (w2 & -> & Hh2 & Ht2 & Hd2 & Hn2 & _).
  destruct (updateDataBlock_frame card flip w2) as (-> & -> & -> & -> & _).
  change (Js.truthy v) with front in *.
  rewrite Hh2, Hh1, Ht2, Ht1, Hd2, Hd1, Hn2, Hn1. unfold queued. rewrite Hn1.
  subst w0. simpl. repeat split.
  destruct (backNow flip front), (frontNow flip front); simpl;
    rewrite ?list_alter_alter_eq; done.
Qed.
End Faces.

Lemma find_agree {A} (p q : A → bool) l :
  (∀ x, p x = q x) → find p l = find q l.
Proof.
  intros Hpq. induction l as [|a l IH]; simpl; [done|].
  by rewrite Hpq, IH.
Qed.

Section Faces2.
Context (s : CardManagerSettings).

Lemma refresh_keeps_id_side card e :
  el_id (refreshFront s card e) = el_id e ∧ el_side (refreshFront s card e) = el_side e ∧
  el_id (refreshBack s card e) = el_id e ∧ el_side (refreshBack s card e) = el_side e.
Proof.
  unfold refreshFront, refreshBack.
  by destruct (s_setupFrontDiv s), (s_setupBackDiv s).
Qed.

Lemma enqueue_length t q : length (Dom.enqueue t q) = S (length q).
Proof.
  induction q as [|u q IH]; simpl; [done|].
  destruct (due t <? due u)%Z; simpl; by rewrite ?IH.
Qed.

(** A lookup by id gives the same answer in two worlds with the same
    document whose elements carry the same ids. *)
Lemma cardElement_ext w w' card :
  doc w' = doc w →
  (∀ r, el_id <$> heap w' !! r = el_id <$> heap w !! r) →
  cardElement s w' card = cardElement s w card.
Proof.
  intros Hdoc Hids. rewrite !cardElement_find, Hdoc.
  apply find_agree. intros r. unfold Dom.has_id.
  specialize (Hids r). destruct (heap w' !! r), (heap w !! r); simpl in *; congruence.
Qed.

Lemma setCardVisible_ids card visible flip w r0 :
  el_id <$> heap (world_of (setCardVisible s card visible flip w)) !! r0 =
  el_id <$> heap w !! r0.
Proof.
  destruct (cardElement s w card) as [r|] eqn:Hel.
  - destruct (setCardVisible_faces s card visible flip w r Hel) as (-> & _).
    destruct (decide (r = r0)) as [->|Hne].
    + rewrite list_lookup_alter_eq. destruct (heap w !! r0) as [e|]; [|done].
      simpl. f_equal.
      destruct (backNow _ _), (frontNow _ _); simpl;
        rewrite ?(proj1 (proj2 (proj2 (refresh_keeps_id_side card _)))),
                ?(proj1 (refresh_keeps_id_side card _)); done.
    + by rewrite list_lookup_alter_ne.
  - by rewrite (setCardVisible_without_element s card visible flip w Hel).
Qed.

Lemma setCardVisible_doc card visible flip w :
  doc (world_of (setCardVisible s card visible flip w)) = doc w.
Proof.
  destruct (cardElement s w card) as [r|] eqn:Hel.
  - by destruct (setCardVisible_faces s card visible flip w r Hel) as (_ & _ & -> & _).
  - by rewrite (setCardVisible_without_element s card visible flip w Hel).
Qed.

Lemma setCardVisible_lookup card visible flip w other :
  cardElement s (world_of (setCardVisible s card visible flip w)) other =
  cardElement s w other.
Proof.
  apply cardElement_ext; [apply setCardVisible_doc|].
  intros r. apply setCardVisible_ids.
Qed.

Lemma setCardVisible_side card visible flip w r :
  cardElement s w card = Some r →
  el_side <$> heap (world_of (setCardVisible s card visible flip w)) !! r =
    Some (if facesFront s card visible then "front" else "back").
Proof.
  intros Hel.
  destruct (cardElement_Some s w card r Hel) as (_ & e & He & _).
  destruct (setCardVisible_faces s card visible flip w r Hel) as (-> & _).
  rewrite list_lookup_alter_eq, He. simpl. f_equal.
  destruct (backNow _ _), (frontNow _ _); simpl;
    rewrite ?(proj2 (proj2 (proj2 (refresh_keeps_id_side card _)))),
            ?(proj1 (proj2 (refresh_keeps_id_side card _))); done.
Qed.
End Faces2.

(** X2: whatever its arguments and whether it returns or throws,
    [setCardVisible] leaves the document as it is, creates no element, keeps
    the id of every element and touches no element but the card's own; so
    every [getCardElement] answers after the call what it answered before. *)
Theorem setCardVisible_keeps_lookups s card visible flip w :
  let w' := world_of (setCardVisible s card visible flip w) in
  doc w' = doc w ∧
  length (heap w') = length (heap w) ∧
  (∀ r, el_id <$> heap w' !! r = el_id <$> heap w !! r) ∧
  (∀ r, cardElement s w card ≠ Some r → heap w' !! r = heap w !! r) ∧
  (∀ other, cardElement s w' other = cardElement s w other).
Proof.
  intros w'. subst w'.
  pose proof (setCardVisible_doc s card visible flip w) as Hdoc.
  pose proof (setCardVisible_ids s card visible flip w) as Hids.
  split; [done|]. split; [|split; [done|split]].
  - destruct (cardElement s w card) as [r|] eqn:Hel.
    + destruct (setCardVisible_faces s card visible flip w r Hel) as (-> & _).
      apply length_alter.
    + by rewrite (setCardVisible_without_element s card visible flip w Hel).
  - intros r Hne. destruct (cardElement s w card) as [r1|] eqn:Hel.
    + destruct (setCardVisible_faces s card visible flip w r1 Hel) as (-> & _).
      apply list_lookup_alter_ne. congruence.
    + by rewrite (setCardVisible_without_element s card visible flip w Hel).
  - intros other. by apply cardElement_ext.
Qed.

Lemma setCardVisible_keeps_lookups_witness :
  cardElement Sample.hooked
    (world_of (setCardVisible Sample.hooked Sample.card5_typed (Some false) None
                              Sample.pair)) Sample.card7 = Some 1%nat ∧
  heap (world_of (setCardVisible Sample.hooked Sample.card5_typed (Some false) None
                                 Sample.pair)) !! 1%nat = Some Sample.div7.
Proof.
  destruct (setCardVisible_keeps_lookups
              Sample.hooked Sample.card5_typed (Some false) None Sample.pair)
    as (_ & _ & _ & Hframe & Hlook).
  split.
  - rewrite Hlook. reflexivity.
  - rewrite Hframe; [reflexivity|]. intros Heq. vm_compute in Heq. discriminate Heq.
Defined.

(** X3: for a card whose element is in the document, [setCardVisible] leaves
    [dataset.side] at ["front"] or ["back"] according to [visible] when it is
    given (an explicit [false] is not overridden) and to the truth value of
    [isCardVisible(card)] when it is left out, whatever the flip options and
    whether the call later throws; an [isCardVisible] setting that answers
    neither [null] nor [undefined] decides alone, and one that answers
    [null] or [undefined] hands over to the card's [type] field. *)
Theorem setCardVisible_settles_side s card visible flip w r :
  cardElement s w card = Some r →
  el_side <$> heap (world_of (setCardVisible s card visible flip w)) !! r =
    Some (if facesFront s card visible then "front" else "back") ∧
  (∀ b, visible = Some b → facesFront s card visible = b) ∧
  (visible = None →
   facesFront s card visible = Js.truthy (isCardVisible s card)) ∧
  (∀ f, s_isCardVisible s = Some f →
        isCardVisible s card =
          if Js.nullish (f card)
          then Js.coalesce (prop card "type") (Js.Bool false)
          else f card).
Proof.
  intros Hel. split; [|split; [|split]].
  - destruct (cardElement_Some s w card r Hel) as (_ & e & He & _).
    destruct (setCardVisible_faces s card visible flip w r Hel) as (-> & _).
    rewrite list_lookup_alter_eq, He. simpl. f_equal.
    destruct (backNow _ _), (frontNow _ _); simpl;
      rewrite ?(proj2 (proj2 (proj2 (refresh_keeps_id_side s card _)))),
              ?(proj1 (proj2 (refresh_keeps_id_side s card _))); done.
  - by intros b ->.
  - by intros ->.
  - intros f Hf. unfold isCardVisible. rewrite Hf. reflexivity.
Qed.

Lemma setCardVisible_settles_side_witness :
  el_side <$> heap (world_of (setCardVisible Sample.picky Sample.card5_typed None None
                                             Sample.pair)) !! 0%nat = Some "back" ∧
  el_side <$> heap (world_of (setCardVisible Sample.plain Sample.card5_typed None None
                                             Sample.pair)) !! 0%nat = Some "front".
Proof.
  destruct (setCardVisible_settles_side
              Sample.picky Sample.card5_typed None None Sample.pair 0%nat eq_refl)
    as (Hpicky & _).
  destruct (setCardVisible_settles_side
              Sample.plain Sample.card5_typed None None Sample.pair 0%nat eq_refl)
    as (Hplain & _).
  rewrite Hpicky, Hplain. split; reflexivity.
Defined.

(** X4: one call of [setCardVisible] queues at most one timer: the front
    refresh is deferred only when the card ends face-down, the back refresh
    only when it ends face-up, each by the time [setTimeout] makes of its
    delay (the delay itself below 2^31, a time between 0 and 2^31 in any
    case), and with delays that are zero or negative nothing is queued at
    all. *)
Theorem setCardVisible_defers_at_most_one s card visible flip w r :
  cardElement s w card = Some r →
  let front := facesFront s card visible in
  let w' := world_of (setCardVisible s card visible flip w) in
  timers w' =
    (if backDeferred flip front
     then queued w (setting flip updateBackDelay 0%Z) (RefreshBack card r) else id)
      ((if frontDeferred flip front
        then queued w (setting flip updateFrontDelay 500%Z) (RefreshFront card r)
        else id) (timers w)) ∧
  frontDeferred flip front && backDeferred flip front = false ∧
  (frontDeferred flip front = true → front = false) ∧
  (backDeferred flip front = true → front = true) ∧
  length (timers w') =
    (length (timers w) +
     (if frontDeferred flip front || backDeferred flip front then 1 else 0))%nat ∧
  ((setting flip updateFrontDelay 500 ≤ 0)%Z →
   (setting flip updateBackDelay 0 ≤ 0)%Z → timers w' = timers w) ∧
  (∀ delay, (0 ≤ Dom.timeout delay < 2 ^ 31)%Z) ∧
  (∀ delay, (0 ≤ delay < 2 ^ 31)%Z → Dom.timeout delay = delay).
Proof.
  intros Hel front w'. subst w'.
  destruct (setCardVisible_faces s card visible flip w r Hel) as (_ & -> & _).
  fold front. split; [done|].
  assert (Hexcl : frontDeferred flip front && backDeferred flip front = false).
  { unfold frontDeferred, backDeferred.
    destruct front; simpl; [by rewrite andb_false_r|].
    by rewrite !andb_false_r. }
  split; [done|]. split; [|split; [|split; [|split; [|split]]]].
  - unfold frontDeferred. destruct front; [by rewrite andb_false_r|done].
  - unfold backDeferred. destruct front; [done|by rewrite andb_false_r].
  - unfold queued.
    destruct (frontDeferred flip front), (backDeferred flip front);
      simpl in *; rewrite ?enqueue_length; try done; lia.
  - intros Hf Hb. unfold frontDeferred, backDeferred.
    rewrite (proj2 (Z.ltb_ge 0 _) Hf), (proj2 (Z.ltb_ge 0 _) Hb).
    by rewrite !andb_false_r.
  - intros delay. unfold Dom.timeout.
    pose proof (Z.mod_pos_bound (delay + 2 ^ 31) (2 ^ 32)). lia.
  - intros delay Hrange. unfold Dom.timeout.
    rewrite Z.mod_small by lia. lia.
Qed.

Lemma setCardVisible_defers_at_most_one_witness :
  timers (world_of (setCardVisible Sample.hooked Sample.card5_typed (Some true)
                                   Sample.backToo Sample.pair))
    = [ {| due := 300; callback := RefreshBack Sample.card5_typed 0%nat |} ] ∧
  timers (world_of (setCardVisible Sample.hooked Sample.card5_typed (Some false)
                                   Sample.atOnce Sample.pair)) = [].
Proof.
  destruct (setCardVisible_defers_at_most_one
              Sample.hooked Sample.card5_typed (Some true) Sample.backToo
              Sample.pair 0%nat eq_refl) as (Hup & _).
  destruct (setCardVisible_defers_at_most_one
              Sample.hooked Sample.card5_typed (Some false) Sample.atOnce
              Sample.pair 0%nat eq_refl) as (_ & _ & _ & _ & _ & Hnone & _).
  split; [rewrite Hup; reflexivity | apply Hnone; vm_compute; discriminate].
Defined.

(** X5: for a card whose element is in the document, a face is refreshed
    during the call exactly when its update option is on and the refresh is
    not deferred: the front when the card ends face-up or the front delay is
    not positive, the back when the card ends face-down or the back delay is
    not positive; nothing else of the element's content changes. *)
Theorem setCardVisible_refreshes_faces s card visible flip w r e :
  cardElement s w card = Some r →
  heap w !! r = Some e →
  let front := facesFront s card visible in
  let w' := world_of (setCardVisible s card visible flip w) in
  el_front <$> heap w' !! r =
    Some (el_front (if frontNow flip front then refreshFront s card e else e)) ∧
  el_back <$> heap w' !! r =
    Some (el_back (if backNow flip front then refreshBack s card e else e)) ∧
  el_main <$> heap w' !! r = Some (el_main e) ∧
  frontNow flip front =
    setting flip updateFront true &&
    (front || (setting flip updateFrontDelay 500 <=? 0)%Z) ∧
  backNow flip front =
    setting flip updateBack false &&
    (negb front || (setting flip updateBackDelay 0 <=? 0)%Z).
Proof.
  intros Hel He front w'. subst w'.
  destruct (setCardVisible_faces s card visible flip w r Hel) as (-> & _).
  fold front. rewrite list_lookup_alter_eq, He. simpl.
  split; [|split; [|split; [|split]]].
  - f_equal. unfold refreshFront, refreshBack.
    by destruct (backNow flip front), (frontNow flip front),
                (s_setupFrontDiv s), (s_setupBackDiv s).
  - f_equal. unfold refreshFront, refreshBack.
    by destruct (backNow flip front), (frontNow flip front),
                (s_setupFrontDiv s), (s_setupBackDiv s).
  - f_equal. unfold refreshFront, refreshBack.
    by destruct (backNow flip front), (frontNow flip front),
                (s_setupFrontDiv s), (s_setupBackDiv s).
  - unfold frontNow, frontDeferred.
    destruct (setting flip updateFront true), front; simpl; try done.
    by destruct (Z.ltb_spec 0 (setting flip updateFrontDelay 500%Z)),
                (Z.leb_spec (setting flip updateFrontDelay 500%Z) 0); try lia.
  - unfold backNow, backDeferred.
    destruct (setting flip updateBack false), front; simpl; try done.
    by destruct (Z.ltb_spec 0 (setting flip updateBackDelay 0%Z)),
                (Z.leb_spec (setting flip updateBackDelay 0%Z) 0); try lia.
Qed.

Lemma setCardVisible_refreshes_faces_witness :
  el_front <$> heap (world_of (setCardVisible Sample.hooked Sample.card5_typed
                                 (Some false) Sample.atOnce Sample.pair)) !! 0%nat
    = Some "<front 3>" ∧
  el_back <$> heap (world_of (setCardVisible Sample.hooked Sample.card5_typed
                                (Some false) Sample.atOnce Sample.pair)) !! 0%nat
    = Some "<back>".
Proof.
  destruct (setCardVisible_refreshes_faces
              Sample.hooked Sample.card5_typed (Some false) Sample.atOnce
              Sample.pair 0%nat Sample.div5 eq_refl eq_refl)
    as (Hfront & Hback & _).
  rewrite Hfront, Hback. split; reflexivity.
Defined.

Section FindIndexMore.
Context {A : Type} (p : A → bool).

Lemma findIndex_first l k x :
  l !! k = Some x → p x = true →
  (∀ j y, (j < k)%nat → l !! j = Some y → p y = false) →
  findIndex p l = Some k.
Proof.
  revert k. induction l as [|a l IH]; intros k Hk Hpx Hbefore; [done|].
  destruct k as [|k]; simpl in *.
  - simplify_eq. by rewrite Hpx.
  - rewrite (Hbefore 0%nat a); [|lia|done].
    rewrite (IH k); [done..|].
    intros j y Hj Hy. apply (Hbefore (S j) y); [lia|done].
Qed.

Lemma findIndex_app l1 l2 :
  findIndex p (l1 ++ l2) =
  match findIndex p l1 with
  | Some k => Some k
  | None => (λ k, length l1 + k)%nat <$> findIndex p l2
  end.
Proof.
  induction l1 as [|a l1 IH]; simpl.
  - by destruct (findIndex p l2).
  - destruct (p a); [done|]. rewrite IH.
    destruct (findIndex p l1); simpl; [done|].
    by destruct (findIndex p l2).
Qed.

Lemma findIndex_alter (g : A → A) i l :
  (∀ x, l !! i = Some x → p (g x) = p x) →
  findIndex p (alter g i l) = findIndex p l.
Proof.
  revert i. induction l as [|a l IH]; intros [|i] Hg; simpl; try done.
  - by rewrite Hg.
  - destruct (p a); [done|]. f_equal. by apply IH.
Qed.
End FindIndexMore.

Lemma fmap_alter_same {A B} (f : A → B) (g : A → A) i (l : list A) :
  (∀ x, l !! i = Some x → f (g x) = f x) → f <$> alter g i l = f <$> l.
Proof.
  revert i. induction l as [|a l IH]; intros [|i] Hg; simpl; try done.
  - by rewrite Hg.
  - f_equal. by apply IH.
Qed.

Section Data.
Context (s : CardManagerSettings).

Lemma contains_stockIds stock stock' card :
  stockIds s stock' = stockIds s stock →
  Stock.contains (getId s) stock' card = Stock.contains (getId s) stock card.
Proof.
  unfold stockIds, Stock.contains. generalize (cards stock), (cards stock').
  induction l as [|a l IH]; intros [|a' l']; simpl; intros Heq; simplify_eq; [done|].
  f_equal; [congruence|]. by apply IH.
Qed.

Lemma splice1_stockIds k card stock :
  findIndex (λ c, String.eqb (getId s c) (getId s card)) (cards stock) = Some k →
  stockIds s (Stock.splice1 k card stock) = stockIds s stock.
Proof.
  intros Hk. destruct (findIndex_Some _ _ _ Hk) as (old & Hold & Hsame & _).
  apply String.eqb_eq in Hsame.
  unfold stockIds, Stock.splice1. simpl.
  rewrite list_fmap_insert. apply list_insert_id.
  by rewrite list_lookup_fmap, Hold, <- Hsame.
Qed.

(** What the data block does to the stocks, in every case. *)
Lemma updateDataBlock_stocks card flip w :
  let w' := world_of (updateDataBlock s card flip w) in
  stocks w' = stocks w ∨
  ∃ i stock k,
    stocks w !! i = Some stock ∧
    findIndex (λ c, String.eqb (getId s c) (getId s card)) (cards stock) = Some k ∧
    stocks w' = alter (Stock.splice1 k card) i (stocks w).
Proof.
  unfold updateDataBlock, getCardStock. run.
  destruct (setting flip updateData true); [|by left].
  destruct (findIndex _ (stocks w)) as [i|] eqn:Hi; [|by left]. simpl.
  destruct (stocks w !! i) as [stock|] eqn:Hstock; simpl; [|by left].
  unfold Stock.getCards.
  destruct (findIndex _ (cards stock)) as [k|] eqn:Hk; [|by left].
  right. by exists i, stock, k.
Qed.

Lemma setCardVisible_stocks card visible flip w :
  let w' := world_of (setCardVisible s card visible flip w) in
  stocks w' = stocks w ∨
  ∃ i stock k,
    stocks w !! i = Some stock ∧
    findIndex (λ c, String.eqb (getId s c) (getId s card)) (cards stock) = Some k ∧
    stocks w' = alter (Stock.splice1 k card) i (stocks w).
Proof.
  destruct (cardElement s w card) as [r|] eqn:Hel.
  - destruct (setCardVisible_present s card visible flip w r Hel)
      as (w1 & Hst & _ & ->).
    simpl. rewrite <- Hst. apply updateDataBlock_stocks.
  - rewrite (setCardVisible_without_element s card visible flip w Hel). by left.
Qed.
End Data.

(** X6: whatever its arguments and outcome, [setCardVisible] keeps the
    sequence of ids of every stock (it only swaps a card for one with the
    same id) and every selection, so [getCardStock] answers for every card
    what it answered before. *)
Theorem setCardVisible_keeps_stock_ids s card visible flip w :
  let w' := world_of (setCardVisible s card visible flip w) in
  stockIds s <$> stocks w' = stockIds s <$> stocks w ∧
  selectedCards <$> stocks w' = selectedCards <$> stocks w ∧
  (∀ other, owningStock s w' other = owningStock s w other).
Proof.
  intros w'. subst w'.
  destruct (setCardVisible_stocks s card visible flip w)
    as [Hsame|(i & stock & k & Hi & Hk & Hst)].
  { rewrite Hsame. repeat split. intros other.
    rewrite !owningStock_findIndex. by rewrite Hsame. }
  rewrite Hst.
  assert (Hids : ∀ x, stocks w !! i = Some x →
                      stockIds s (Stock.splice1 k card x) = stockIds s x).
  { intros x Hx. simplify_eq. by apply splice1_stockIds. }
  split; [|split].
  - by apply fmap_alter_same.
  - by apply fmap_alter_same.
  - intros other. rewrite !owningStock_findIndex, Hst.
    apply findIndex_alter. intros x Hx.
    apply contains_stockIds. by apply Hids.
Qed.

(** X7: with [updateData: false], [setCardVisible] always returns, also for
    a card that no stock holds, and leaves every stock as it was. *)
Theorem setCardVisible_without_data_update s card visible flip w :
  setting flip updateData true = false →
  ∃ w', setCardVisible s card visible flip w = Returned tt w' ∧
        stocks w' = stocks w.
Proof.
  intros Hoff. destruct (cardElement s w card) as [r|] eqn:Hel.
  - destruct (setCardVisible_present s card visible flip w r Hel)
      as (w1 & Hst & _ & ->).
    exists w1. split; [|done]. unfold updateDataBlock. by rewrite Hoff.
  - exists w. split; [|done]. by apply setCardVisible_without_element.
Qed.

Lemma setCardVisible_without_data_update_witness :
  ∃ w', setCardVisible Sample.plain Sample.card5 (Some false) Sample.dataOff
                       Sample.loose = Returned tt w' ∧
        stocks w' = stocks Sample.loose.
Proof.
  apply (setCardVisible_without_data_update
           Sample.plain Sample.card5 (Some false) Sample.dataOff Sample.loose).
  reflexivity.
Defined.

Section Flip.
Context (s : CardManagerSettings).

Lemma flipCard_present card flip w r e :
  cardElement s w card = Some r →
  heap w !! r = Some e →
  flipCard s card flip w =
  setCardVisible s card (Some (negb (String.eqb (el_side e) "front"))) flip w.
Proof.
  intros Hel He. rewrite cardElement_find in Hel.
  unfold flipCard, getCardElement, Dom.getElementById, Dom.getSide.
  unfold mbind at 1 2, M_bind at 1 2, gets. rewrite Hel, He. done.
Qed.
End Flip.

(** X8: for a card whose element is in the document, [flipCard] leaves
    [dataset.side] at ["back"] when it was ["front"] and at ["front"] for any
    other value, whatever [isCardVisible] says and whether the call later
    throws; the element is still found afterwards, and a second [flipCard]
    brings a side that was ["front"] or ["back"] to where it started. *)
Theorem flipCard_toggles_side s card flip flip' w r e :
  cardElement s w card = Some r →
  heap w !! r = Some e →
  let w1 := world_of (flipCard s card flip w) in
  let w2 := world_of (flipCard s card flip' w1) in
  el_side <$> heap w1 !! r =
    Some (if String.eqb (el_side e) "front" then "back" else "front") ∧
  cardElement s w1 card = Some r ∧
  (el_side e = "front" ∨ el_side e = "back" → el_side <$> heap w2 !! r = Some (el_side e)).
Proof.
  intros Hel He w1 w2.
  assert (Hside1 : el_side <$> heap w1 !! r =
            Some (if String.eqb (el_side e) "front" then "back" else "front")).
  { subst w1. rewrite (flipCard_present s card flip w r e Hel He).
    rewrite (setCardVisible_side s card _ flip w r Hel).
    unfold facesFront. simpl. by destruct (String.eqb (el_side e) "front"). }
  assert (Hel1 : cardElement s w1 card = Some r).
  { subst w1. rewrite (flipCard_present s card flip w r e Hel He).
    by rewrite setCardVisible_lookup. }
  split; [done|]. split; [done|].
  intros Hfb.
  destruct (heap w1 !! r) as [e1|] eqn:He1; [|done].
  simpl in Hside1. injection Hside1 as Hside1.
  subst w2. rewrite (flipCard_present s card flip' w1 r e1 Hel1 He1).
  rewrite (setCardVisible_side s card _ flip' w1 r Hel1), Hside1.
  unfold facesFront. simpl.
  by destruct Hfb as [-> | ->].
Qed.

Lemma flipCard_toggles_side_witness :
  el_side <$> heap (world_of (flipCard Sample.hooked Sample.card5 None Sample.pair))
    !! 0%nat = Some "back" ∧
  el_side <$> heap (world_of (flipCard Sample.hooked Sample.card5 None
                      (world_of (flipCard Sample.hooked Sample.card5 None Sample.pair))))
    !! 0%nat = Some "front".
Proof.
  destruct (flipCard_toggles_side
              Sample.hooked Sample.card5 None None Sample.pair 0%nat Sample.div5
              eq_refl eq_refl) as (Honce & _ & Htwice).
  split; [exact Honce | apply Htwice; by left].
Defined.

(** X9: for a card whose element is in the document,
    [updateCardInformations] replaces the card in its owning stock whatever
    the options passed (also [updateData: false]), throws a [TypeError] when
    no stock holds the card, and shows the side [isCardVisible(card)] asks
    for. *)
Theorem updateCardInformations_forces_data s card flip w r :
  cardElement s w card = Some r →
  (∀ i, owningStock s w card = Some i →
        ∃ w' stock k,
          updateCardInformations s card flip w = Returned tt w' ∧
          stocks w !! i = Some stock ∧
          findIndex (λ c, String.eqb (getId s c) (getId s card)) (cards stock) = Some k ∧
          stocks w' = alter (Stock.splice1 k card) i (stocks w)) ∧
  (owningStock s w card = None →
   ∃ w', updateCardInformations s card flip w = Thrown (Js.TypeError "getCards") w') ∧
  el_side <$> heap (world_of (updateCardInformations s card flip w)) !! r =
    Some (if Js.truthy (isCardVisible s card) then "front" else "back").
Proof.
  intros Hel. unfold updateCardInformations.
  set (forced := Some _).
  assert (Hon : setting forced updateData true = true) by done.
  split; [|split].
  - intros i Hi.
    destruct (setCardVisible_present s card None forced w r Hel)
      as (w1 & Hst & _ & ->).
    rewrite <- (owningStock_stocks s w w1 card Hst) in Hi.
    destruct (updateDataBlock_in_stock s card forced w1 i Hon Hi)
      as (stock & k & Hstock & Hk & ->).
    eexists _, stock, k. split; [done|]. simpl. by rewrite <- Hst.
  - intros Hnone.
    destruct (setCardVisible_present s card None forced w r Hel)
      as (w1 & Hst & _ & ->).
    exists w1. apply updateDataBlock_without_stock; [done|].
    by rewrite (owningStock_stocks s w w1 card Hst).
  - by rewrite (setCardVisible_side s card None forced w r Hel).
Qed.

Lemma updateCardInformations_forces_data_witness :
  ∃ w' stock k,
    updateCardInformations Sample.plain Sample.card5_typed Sample.dataOff
                           Sample.onTable = Returned tt w' ∧
    stocks Sample.onTable !! 1%nat = Some stock ∧
    findIndex (λ c, String.eqb (getId Sample.plain c)
                               (getId Sample.plain Sample.card5_typed))
              (cards stock) = Some k ∧
    stocks w' = alter (Stock.splice1 k Sample.card5_typed) 1%nat
                      (stocks Sample.onTable).
Proof.
  apply (proj1 (updateCardInformations_forces_data
                  Sample.plain Sample.card5_typed Sample.dataOff Sample.onTable
                  0%nat eq_refl) 1%nat).
  reflexivity.
Defined.

(** X10: [getCardStock] answers the first registered stock that contains the
    card (no stock registered before it does), and [undefined] exactly when
    no registered stock contains the card. *)
Theorem getCardStock_first_containing s w card :
  (∀ i, owningStock s w card = Some i ↔
        ∃ stock, stocks w !! i = Some stock ∧
                 Stock.contains (getId s) stock card = true ∧
                 ∀ j earlier, (j < i)%nat → stocks w !! j = Some earlier →
                              Stock.contains (getId s) earlier card = false) ∧
  (owningStock s w card = None ↔
   ∀ stock, stock ∈ stocks w → Stock.contains (getId s) stock card = false).
Proof.
  rewrite owningStock_findIndex. split.
  - intros i. split.
    + apply findIndex_Some.
    + intros (stock & Hi & Hc & Hbefore). by eapply findIndex_first.
  - apply findIndex_None.
Qed.

Lemma getCardStock_first_containing_witness :
  ∃ stock, stocks Sample.onTable !! 1%nat = Some stock ∧
           Stock.contains (getId Sample.plain) stock Sample.card5 = true ∧
           ∀ j earlier, (j < 1)%nat → stocks Sample.onTable !! j = Some earlier →
                        Stock.contains (getId Sample.plain) earlier Sample.card5 = false.
Proof.
  apply (proj1 (proj1 (getCardStock_first_containing
                         Sample.plain Sample.onTable Sample.card5) 1%nat)).
  reflexivity.
Defined.

(** X11: [addStock] registers the stock behind the ones already there and
    changes nothing else; a card that had an owning stock keeps it, and a
    card that had none gets the new stock as owner exactly when the new
    stock contains it. *)
Theorem addStock_keeps_owners s stock w card :
  ∃ w', addStock stock w = Returned tt w' ∧
        stocks w' = stocks w ++ [stock] ∧
        heap w' = heap w ∧ doc w' = doc w ∧
        (∀ i, owningStock s w card = Some i → owningStock s w' card = Some i) ∧
        (owningStock s w card = None →
         owningStock s w' card =
           if Stock.contains (getId s) stock card
           then Some (length (stocks w)) else None).
Proof.
  eexists. split; [reflexivity|]. simpl. repeat split.
  - intros i. rewrite !owningStock_findIndex. simpl.
    rewrite findIndex_app. by intros ->.
  - rewrite !owningStock_findIndex. simpl. rewrite findIndex_app. intros ->.
    simpl. destruct (Stock.contains _ _ _); simpl; [|done].
    f_equal. lia.
Qed.

Lemma addStock_keeps_owners_witness :
  ∃ w', addStock {| cards := [Sample.card5]; selectedCards := [] |} Sample.onTable
          = Returned tt w' ∧
        owningStock Sample.plain w' Sample.card5 = Some 1%nat ∧
        owningStock Sample.plain w' Sample.card7 = None.
Proof.
  destruct (addStock_keeps_owners
              Sample.plain {| cards := [Sample.card5]; selectedCards := [] |}
              Sample.onTable Sample.card5) as (w' & Hrun & _ & _ & _ & Hkeep & _).
  destruct (addStock_keeps_owners
              Sample.plain {| cards := [Sample.card5]; selectedCards := [] |}
              Sample.onTable Sample.card7) as (w7 & Hrun7 & _ & _ & _ & _ & Hnew).
  assert (w7 = w') as -> by congruence.
  exists w'. split; [exact Hrun|]. split.
  - apply Hkeep. reflexivity.
  - rewrite Hnew; reflexivity.
Defined.

(** A card without element gets one new element, carrying its id. *)
Lemma createCardElement_new_element s card visible w :
  cardElement s w card = None →
  ∃ w' e, createCardElement s card visible w = Returned (length (heap w)) w' ∧
          heap w' = heap w ++ [e] ∧ el_id e = getId s card.
Proof.
  intros Hnone.
  destruct (createCardElement_fresh s card visible w Hnone)
    as (w' & Hrun & Hheap & _).
  eexists w', _. split; [exact Hrun|]. split; [exact Hheap|].
  by rewrite populated_id.
Qed.

(** X12: for a card whose id is plain text for an HTML attribute (printable
    ASCII without quote and ampersand), the element a successful
    [createCardElement] returns carries the card's id, faces with the ids
    [<id>-front] and [<id>-back], the class [card], the side ["front"] unless
    [visible] is [false], and on each of its three divs what the matching
    hook makes of an empty div (nothing when the hook is not set). *)
Theorem createCardElement_builds s card visible w r w' :
  Dom.plain_attribute (getId s card) = true →
  createCardElement s card visible w = Returned r w' →
  ∃ e, heap w' !! r = Some e ∧
       el_id e = getId s card ∧
       el_front_id e = getId s card +:+ "-front" ∧
       el_back_id e = getId s card +:+ "-back" ∧
       el_side e = (if default true visible then "front" else "back") ∧
       el_classes e = ["card"] ∧
       el_main e = from_option (λ f, f card "") "" (s_setupDiv s) ∧
       el_front e = from_option (λ f, f card "") "" (s_setupFrontDiv s) ∧
       el_back e = from_option (λ f, f card "") "" (s_setupBackDiv s).
Proof.
  intros _ Hrun.
  destruct (cardElement s w card) as [r0|] eqn:Hel.
  { by rewrite (createCardElement_existing s card visible w r0 Hel) in Hrun. }
  destruct (createCardElement_fresh s card visible w Hel)
    as (w2 & Hrun2 & Hheap & _).
  rewrite Hrun in Hrun2. injection Hrun2 as -> ->.
  eexists. split.
  { rewrite Hheap. apply list_lookup_middle. reflexivity. }
  unfold populated.
  by destruct (s_setupDiv s), (s_setupFrontDiv s), (s_setupBackDiv s).
Qed.

Lemma createCardElement_builds_witness :
  ∃ e, heap (world_of (createCardElement Sample.hooked Sample.card5 (Some false)
                                         Sample.emptyWorld)) !! 0%nat = Some e ∧
       el_id e = getId Sample.hooked Sample.card5 ∧
       el_front_id e = getId Sample.hooked Sample.card5 +:+ "-front" ∧
       el_back_id e = getId Sample.hooked Sample.card5 +:+ "-back" ∧
       el_side e = "back" ∧
       el_classes e = ["card"] ∧
       el_main e = "<div>" ∧
       el_front e = "<front undefined>" ∧
       el_back e = "<back>".
Proof.
  apply (createCardElement_builds
           Sample.hooked Sample.card5 (Some false) Sample.emptyWorld 0%nat).
  - reflexivity.
  - reflexivity.
Defined.

(** X13: a successful [createCardElement] leaves the page as it found it:
    every [getCardElement] answers as before, the elements that existed are
    untouched, the new element is in no document, and the stocks and the
    timer queue are unchanged. *)
Theorem createCardElement_leaves_page s card visible w r w' :
  createCardElement s card visible w = Returned r w' →
  (∀ other, cardElement s w' other = cardElement s w other) ∧
  (∀ r0 e0, heap w !! r0 = Some e0 → heap w' !! r0 = Some e0) ∧
  Dom.isConnected w' r = false ∧
  stocks w' = stocks w ∧ timers w' = timers w.
Proof.
  intros Hrun. split.
  { intros other. by eapply createCardElement_lookup_frame. }
  destruct (cardElement s w card) as [r0|] eqn:Hel.
  { by rewrite (createCardElement_existing s card visible w r0 Hel) in Hrun. }
  destruct (createCardElement_fresh s card visible w Hel)
    as (w2 & Hrun2 & Hheap & Hdoc & Hst & Htm & _).
  rewrite Hrun in Hrun2. injection Hrun2 as -> ->.
  repeat split; [|by unfold Dom.isConnected; rewrite Hdoc; apply not_connected_after_removal|done..].
  intros r0 e0 He0. rewrite Hheap. by apply lookup_app_l_Some.
Qed.

Lemma createCardElement_leaves_page_witness :
  cardElement Sample.plain
    (world_of (createCardElement Sample.plain Sample.card7 None Sample.onTable))
    Sample.card5 = Some 0%nat ∧
  cardElement Sample.plain
    (world_of (createCardElement Sample.plain Sample.card7 None Sample.onTable))
    Sample.card7 = None ∧
  Dom.isConnected
    (world_of (createCardElement Sample.plain Sample.card7 None Sample.onTable))
    1%nat = false.
Proof.
  destruct (createCardElement_leaves_page
              Sample.plain Sample.card7 None Sample.onTable 1%nat _ eq_refl)
    as (Hlook & _ & Hconn & _).
  rewrite !Hlook. split; [reflexivity|]. split; [reflexivity|exact Hconn].
Defined.

(** X14: the duplicate check of [createCardElement] only sees elements that
    are in the document: called twice in a row for a card without element
    (the first result not yet attached), it succeeds twice and returns two
    distinct elements carrying the same id. *)
Theorem createCardElement_blind_to_detached s card v1 v2 w :
  cardElement s w card = None →
  ∃ r1 w1 r2 w2 e1 e2,
    createCardElement s card v1 w = Returned r1 w1 ∧
    createCardElement s card v2 w1 = Returned r2 w2 ∧
    r1 ≠ r2 ∧
    heap w2 !! r1 = Some e1 ∧ heap w2 !! r2 = Some e2 ∧
    el_id e1 = getId s card ∧ el_id e2 = getId s card.
Proof.
  intros Hnone.
  destruct (createCardElement_new_element s card v1 w Hnone)
    as (w1 & e1 & Hrun1 & Hheap1 & Hid1).
  assert (Hnone1 : cardElement s w1 card = None).
  { by rewrite (createCardElement_lookup_frame s card v1 w w1 _ card Hrun1). }
  destruct (createCardElement_new_element s card v2 w1 Hnone1)
    as (w2 & e2 & Hrun2 & Hheap2 & Hid2).
  exists (length (heap w)), w1, (length (heap w1)), w2, e1, e2.
  split; [done|]. split; [done|]. split; [|split; [|split]].
  - rewrite Hheap1, length_app. simpl. lia.
  - rewrite Hheap2, Hheap1. apply lookup_app_l_Some.
    apply list_lookup_middle. reflexivity.
  - rewrite Hheap2. apply list_lookup_middle. reflexivity.
  - done.
Qed.

Lemma createCardElement_blind_to_detached_witness :
  ∃ r1 w1 r2 w2 e1 e2,
    createCardElement Sample.plain Sample.card5 None Sample.emptyWorld
      = Returned r1 w1 ∧
    createCardElement Sample.plain Sample.card5 None w1 = Returned r2 w2 ∧
    r1 ≠ r2 ∧
    heap w2 !! r1 = Some e1 ∧ heap w2 !! r2 = Some e2 ∧
    el_id e1 = getId Sample.plain Sample.card5 ∧
    el_id e2 = getId Sample.plain Sample.card5.
Proof.
  apply (createCardElement_blind_to_detached
           Sample.plain Sample.card5 None None Sample.emptyWorld).
  reflexivity.
Defined.

Section Removal2.
Context (s : CardManagerSettings).

End Removal2.



Section Loop.
Context (s : CardManagerSettings).

Lemma fire_effect cb w :
  let w' := world_of (fire s cb w) in
  heap w' = alter (refreshOf s cb) (target cb) (heap w) ∧
  doc w' = doc w ∧ stocks w' = stocks w ∧ timers w' = timers w ∧ now w' = now w.
Proof.
  destruct cb as [card r|card r]; simpl.
  - destruct (callHook_front s card r w) as [_ ->].
    by destruct (callHook_frame SetupFrontDiv (s_setupFrontDiv s) card r w)
      as (-> & -> & -> & ->).
  - destruct (callHook_back s card r w) as [_ ->].
    by destruct (callHook_frame SetupBackDiv (s_setupBackDiv s) card r w)
      as (-> & -> & -> & ->).
Qed.

Lemma refreshOf_keeps cb e :
  el_id (refreshOf s cb e) = el_id e ∧ el_side (refreshOf s cb e) = el_side e.
Proof.
  destruct (refresh_keeps_id_side s
              match cb with RefreshFront c _ | RefreshBack c _ => c end e)
    as (? & ? & ? & ?).
  by destruct cb.
Qed.

(** Firing a batch of timers, one after the other. *)
Lemma fire_all_effect ready w :
  let w' := foldl (λ w' tm, world_of (fire s (callback tm) w')) w ready in
  doc w' = doc w ∧ stocks w' = stocks w ∧ timers w' = timers w ∧
  (∀ r, el_id <$> heap w' !! r = el_id <$> heap w !! r) ∧
  (∀ r, el_side <$> heap w' !! r = el_side <$> heap w !! r) ∧
  (∀ r, (∀ tm, tm ∈ ready → target (callback tm) ≠ r) →
        heap w' !! r = heap w !! r).
Proof.
  revert w. induction ready as [|tm ready IH]; intros w; simpl; [done|].
  destruct (fire_effect (callback tm) w) as (Hheap & Hdoc & Hst & Htm & _).
  destruct (IH (world_of (fire s (callback tm) w)))
    as (-> & -> & -> & Hids & Hsides & Hframe).
  repeat split; try done.
  - intros r. rewrite Hids, Hheap.
    destruct (decide (target (callback tm) = r)) as [<-|Hne];
      [|by rewrite list_lookup_alter_ne].
    rewrite list_lookup_alter_eq. destruct (heap w !! _); [|done]. simpl.
    by rewrite (proj1 (refreshOf_keeps _ _)).
  - intros r. rewrite Hsides, Hheap.
    destruct (decide (target (callback tm) = r)) as [<-|Hne];
      [|by rewrite list_lookup_alter_ne].
    rewrite list_lookup_alter_eq. destruct (heap w !! _); [|done]. simpl.
    by rewrite (proj2 (refreshOf_keeps _ _)).
  - intros r Hnot. rewrite Hframe.
    + rewrite Hheap, list_lookup_alter_ne; [done|]. apply Hnot. by left.
    + intros tm' Hin. apply Hnot. by right.
Qed.
End Loop.

(** X16: when pending refreshes fire, each acts on the element its closure
    captured: the document, the stocks, and the id and side of every element
    stay as they are, an element that no fired timer captured is untouched,
    and the timers not yet due stay queued. *)
Theorem advance_touches_only_captured s dt w :
  let w' := advance s dt w in
  doc w' = doc w ∧ stocks w' = stocks w ∧
  timers w' = filter (λ tm, (now w + dt < due tm)%Z) (timers w) ∧
  (∀ r, el_id <$> heap w' !! r = el_id <$> heap w !! r) ∧
  (∀ r, el_side <$> heap w' !! r = el_side <$> heap w !! r) ∧
  (∀ r, (∀ tm, tm ∈ timers w → (due tm ≤ now w + dt)%Z → target (callback tm) ≠ r) →
        heap w' !! r = heap w !! r).
Proof.
  intros w'. subst w'. unfold advance.
  set (base := set_now _ _).
  destruct (fire_all_effect s (filter (λ tm, (due tm ≤ now w + dt)%Z) (timers w)) base)
    as (-> & -> & -> & Hids & Hsides & Hframe).
  repeat split; try done.
  intros r Hnot. rewrite Hframe; [done|].
  intros tm [Hdue Hin]%list_elem_of_filter. by apply Hnot.
Qed.

Lemma advance_touches_only_captured_witness :
  heap (advance Sample.hooked 500
          (world_of (setCardVisible Sample.hooked Sample.card5_typed (Some false)
                                    None Sample.pair))) !! 1%nat
    = Some Sample.div7.
Proof.
  destruct (advance_touches_only_captured Sample.hooked 500
              (world_of (setCardVisible Sample.hooked Sample.card5_typed
                                        (Some false) None Sample.pair)))
    as (_ & _ & _ & _ & _ & Hframe).
  rewrite Hframe; [reflexivity|].
  intros tm Hin _. apply list_elem_of_singleton in Hin. subst tm.
  simpl. discriminate.
Defined.


